(** * EditorialLinks: the document pipeline of [working model/app.py]

    A shallow embedding of the Flask application's core functions
    ([extract_file_id], [sanitize_filename], [download_pdf],
    [extract_editorial_links_from_pdf], [check_editorial_use] and
    [process_google_docs_from_excel]) and the properties of its
    specification that can be stated about them.

    Conventions of the model.
    - A Python [str] is a list of Unicode code points ([list N]); [lit]
      turns a literal into one.
    - A Python value that reaches the functions (a spreadsheet cell, an
      argument) is a [value]: a [str], a missing value ([NaN], [None]) or
      any other object, the last two carrying what [str()] prints for them.
    - The network, the PDF parser and the two text library calls of the
      classifier are an environment [Env]; the network answers the n-th
      request of a run as its oracle says, so that a retry can meet a
      different answer than the first attempt.
    - The file system is a finite map from paths to contents, and the
      state threaded through the effectful functions is that map with the
      number of requests made so far.
    - Exceptions that the code catches ([requests] exceptions) are values
      of [outcome]; those it does not catch end the computation with
      [Raise]: a request can also raise an exception that is no
      [RequestException] (urllib3 refusing the URL), and opening a file
      for writing can raise [OSError] (a name too long for the file
      system); the environment says which requests and which paths.
    - Once a file is open, writing to it succeeds; [print] calls are not
      modelled. *)

From Stdlib Require Import String Ascii Strings.Byte ZArith NArith Lia.
From stdpp Require Import base option list gmap.

Local Open Scope Z_scope.
Local Open Scope list_scope.

(** ** Strings *)

Abbreviation char := N (only parsing).
Abbreviation str := (list N) (only parsing).
Abbreviation bytes := (list byte) (only parsing).

Definition lit (s : string) : str :=
  List.map N_of_ascii (list_ascii_of_string s).

(** [str.isspace]: the code points [str.strip()] removes and the [\s] of a
    [str] pattern matches. *)
Definition is_space (c : char) : bool :=
  ((9 <=? c) && (c <=? 13) || (28 <=? c) && (c <=? 32)
   || (c =? 133) || (c =? 160) || (c =? 5760)
   || (8192 <=? c) && (c <=? 8202) || (c =? 8232) || (c =? 8233)
   || (c =? 8239) || (c =? 8287) || (c =? 12288))%N.

Fixpoint lstrip (s : str) : str :=
  match s with
  | c :: s' => if is_space c then lstrip s' else s
  | [] => []
  end.

Definition rstrip (s : str) : str := rev (lstrip (rev s)).

(** [s.strip()] *)
Definition strip (s : str) : str := rstrip (lstrip s).

(** [s.startswith(p)], returning what follows the prefix. *)
Fixpoint strip_prefix (p s : str) : option str :=
  match p, s with
  | [], _ => Some s
  | a :: p', b :: s' => if (a =? b)%N then strip_prefix p' s' else None
  | _ :: _, [] => None
  end.

Definition starts_with (p s : str) : bool :=
  match strip_prefix p s with Some _ => true | None => false end.

(** [p in s] *)
Fixpoint contains (p s : str) : bool :=
  starts_with p s ||
  match s with
  | [] => false
  | _ :: s' => contains p s'
  end.

(** [s.replace(old, new)] for a non-empty [old]: the occurrences of [old]
    are found from the left and do not overlap; [skip] counts the
    characters of a found occurrence that are still to be passed over. *)
Fixpoint replace_from (old new : str) (skip : nat) (s : str) : str :=
  match s with
  | [] => []
  | c :: s' =>
      match skip with
      | S k => replace_from old new k s'
      | O =>
          if starts_with old s
          then new ++ replace_from old new (Nat.pred (length old)) s'
          else c :: replace_from old new O s'
      end
  end.

Definition replace (old new s : str) : str := replace_from old new O s.

Fixpoint take_while (f : char -> bool) (s : str) : str :=
  match s with
  | c :: s' => if f c then c :: take_while f s' else []
  | [] => []
  end.

(** ** Python values *)

Inductive value :=
| VStr (s : str)          (* a str *)
| VNa (repr : str)        (* NaN, None, NaT: pd.isna is true *)
| VOther (repr : str).    (* any other object *)

Definition isinstance_str (v : value) : bool :=
  match v with VStr _ => true | _ => false end.

Definition isna (v : value) : bool :=
  match v with VNa _ => true | _ => false end.

(** [str(v)] *)
Definition py_str (v : value) : str :=
  match v with VStr s => s | VNa r => r | VOther r => r end.

(** ** extract_file_id *)

Definition doc_prefix : str := lit "https://docs.google.com/document/d/".

(** the class [[a-zA-Z0-9-_]] *)
Definition id_char (c : char) : bool :=
  ((97 <=? c) && (c <=? 122) || (65 <=? c) && (c <=? 90)
   || (48 <=? c) && (c <=? 57) || (c =? 45) || (c =? 95))%N.

(** [re.search] of the pattern
    [https://docs\.google\.com/document/d/([a-zA-Z0-9-_]+)] and its group 1:
    the leftmost position where the prefix is followed by an identifier
    character, and the longest run of them there. *)
Fixpoint search_file_id (s : str) : option str :=
  match s with
  | [] => None
  | _ :: s' =>
      match strip_prefix doc_prefix s with
      | Some rest =>
          match take_while id_char rest with
          | [] => search_file_id s'
          | id => Some id
          end
      | None => search_file_id s'
      end
  end.

Definition extract_file_id (doc_url : value) : option str :=
  if negb (isinstance_str doc_url) || isna doc_url then None
  else search_file_id (py_str doc_url).

(** ** sanitize_filename *)

Definition Untitled : str := lit "Untitled".

(** the character class of the substitution: less-than, greater-than,
    colon, double quote, slash, backslash, vertical bar, question mark and
    asterisk *)
Definition invalid_char (c : char) : bool :=
  ((c =? 60) || (c =? 62) || (c =? 58) || (c =? 34) || (c =? 47)
   || (c =? 92) || (c =? 124) || (c =? 63) || (c =? 42))%N.

Definition underscore : char := 95%N.

(** [re.sub] of that class by an underscore *)
Definition sub_invalid (s : str) : str :=
  List.map (fun c => if invalid_char c then underscore else c) s.

Definition sanitize_filename (filename : value) : str :=
  if negb (isinstance_str filename) || isna filename then Untitled
  else
    let filename :=
      replace (lit "http://") [] (replace (lit "https://") [] (strip (py_str filename))) in
    let filename := sub_invalid filename in
    take 200 filename.


(** ** The environment and the state *)

(** What a request can come back with. [chunks] is what
    [iter_content(1024)] yields; when [stream_breaks] holds the stream
    raises a [RequestException] after them. [text] is [response.text]. *)
Record response := {
  status_code : Z;
  text : str;
  chunks : list bytes;
  stream_breaks : bool
}.

Inductive outcome :=
| Responded (r : response)
| RequestException        (* an exception of requests, caught by the code *)
| OtherError.             (* any other exception raised by the call *)

(** An entry of [page.get_links()]: a dict that may have the key [uri]. *)
Record link := { uri : option str }.

Record page := {
  get_links : list link;
  get_text : str
}.

Record Env := {
  (* the answer to the n-th request of the run, made to the given URL *)
  net : nat -> str -> outcome;
  (* fitz.open on a file with these contents; None when it raises *)
  fitz_parse : bytes -> option (list page);
  (* BeautifulSoup(html, "html.parser").text *)
  soup_text : str -> str;
  (* str.lower *)
  lower : str -> str;
  (* whether open(path, "wb") succeeds *)
  can_open : str -> bool
}.

Record state := {
  clock : nat;
  files : gmap str bytes
}.

Inductive exn :=
| UnboundLocalError (name : string)
| FileNotFoundError (path : str)
| FileDataError (path : str)
| OSError (path : str)
| OtherRequestError (url : str).

Inductive res (A : Type) :=
| Ok (a : A)
| Raise (e : exn).
Arguments Ok {A} a.
Arguments Raise {A} e.

Definition M (A : Type) : Type := state -> res A * state.

Definition ret {A} (a : A) : M A := fun st => (Ok a, st).

Definition bind {A B} (m : M A) (k : A -> M B) : M B :=
  fun st =>
    match m st with
    | (Ok a, st') => k a st'
    | (Raise e, st') => (Raise e, st')
    end.

Definition raise {A} (e : exn) : M A := fun st => (Raise e, st).

Notation "'let!' x ':=' c 'in' k" := (bind c (fun x => k))
  (at level 10, x name, c at level 100, k at level 200).
Notation "'run!' c 'in' k" := (bind c (fun _ => k))
  (at level 10, c at level 100, k at level 200).

(** [requests.get(url, ...)] and [session.get(url, ...)] *)
Definition http_get (E : Env) (url : str) : M outcome :=
  fun st => (Ok (net E (clock st) url),
             {| clock := S (clock st); files := files st |}).

(** [with open(path, "wb") as f: for chunk in ...: f.write(chunk)]: when
    the file cannot be opened nothing is written. *)
Definition write_file (E : Env) (path : str) (cs : list bytes) : M unit :=
  fun st =>
    if can_open E path
    then (Ok tt, {| clock := clock st; files := <[path := concat cs]> (files st) |})
    else (Raise (OSError path), st).

(** [os.remove(path)] *)
Definition os_remove (path : str) : M unit :=
  fun st =>
    match files st !! path with
    | Some _ => (Ok tt, {| clock := clock st; files := delete path (files st) |})
    | None => (Raise (FileNotFoundError path), st)
    end.

(** [fitz.open(path)] *)
Definition fitz_open (E : Env) (path : str) : M (list page) :=
  fun st =>
    match files st !! path with
    | Some b =>
        match fitz_parse E b with
        | Some doc => (Ok doc, st)
        | None => (Raise (FileDataError path), st)
        end
    | None => (Raise (FileNotFoundError path), st)
    end.

(** ** download_pdf *)

Definition pdf_export_url (file_id : value) : str :=
  lit "https://docs.google.com/document/d/" ++ py_str file_id
  ++ lit "/export?format=pdf".

(** The [while retry_count < max_retries] loop. [fuel] bounds the number
    of iterations for the recursion; [download_pdf] gives enough
    ([download_loop_fuel]). *)
Fixpoint download_loop (E : Env) (pdf_url pdf_filename : str)
    (max_retries : Z) (fuel : nat) (retry_count : Z) : M (option str) :=
  if retry_count <? max_retries then
    match fuel with
    | O => ret None
    | S fuel' =>
        let! o := http_get E pdf_url in
        match o with
        | Responded r =>
            if status_code r =? 200 then
              run! write_file E pdf_filename (chunks r) in
              if stream_breaks r
              then download_loop E pdf_url pdf_filename max_retries fuel' (retry_count + 1)
              else ret (Some pdf_filename)
            else ret None
        | RequestException =>
            download_loop E pdf_url pdf_filename max_retries fuel' (retry_count + 1)
        | OtherError => raise (OtherRequestError pdf_url)
        end
    end
  else ret None.

Definition download_pdf (E : Env) (file_id file_name : value) (max_retries : Z)
  : M (option str) :=
  let pdf_url := pdf_export_url file_id in
  let file_name := sanitize_filename file_name in
  let pdf_filename := file_name ++ lit ".pdf" in
  let retry_count := 0 in
  download_loop E pdf_url pdf_filename max_retries (Z.to_nat max_retries) retry_count.

Definition default_max_retries : Z := 3.

(** ** check_editorial_use *)

Inductive verdict :=
| EditorialUseOnly      (* the string with the check mark *)
| NotEditorial
| FailedToRetrieve
| ErrorFetching.

Definition is_editorial (v : verdict) : bool :=
  match v with EditorialUseOnly => true | _ => false end.

Definition check_editorial_use (E : Env) (image_url : str) : M verdict :=
  let! o := http_get E image_url in
  match o with
  | Responded r =>
      if negb (status_code r =? 200) then ret FailedToRetrieve
      else if contains (lit "editorial use only") (lower E (soup_text E (text r)))
           then ret EditorialUseOnly
           else ret NotEditorial
  | RequestException => ret ErrorFetching
  | OtherError => raise (OtherRequestError image_url)
  end.

(** ** extract_editorial_links_from_pdf *)

Definition non_space (c : char) : bool := negb (is_space c).

(** A match of [scheme] followed by [[^\s]+] at the head of [s]. *)
Definition url_with_scheme (scheme s : str) : option str :=
  match strip_prefix scheme s with
  | Some rest =>
      match take_while non_space rest with
      | [] => None
      | body => Some (scheme ++ body)
      end
  | None => None
  end.

(** A match of [https?://[^\s]+] at the head of [s]: the optional [s] is
    tried first. *)
Definition url_at (s : str) : option str :=
  match url_with_scheme (lit "https://") s with
  | Some u => Some u
  | None => url_with_scheme (lit "http://") s
  end.

(** [url_pattern.findall(text)]: the matches from the left, none
    overlapping another; [skip] counts the characters of the last match
    that are still to be passed over. *)
Fixpoint findall_from (skip : nat) (s : str) : list str :=
  match s with
  | [] => []
  | _ :: s' =>
      match skip with
      | S k => findall_from k s'
      | O =>
          match url_at s with
          | Some u => u :: findall_from (Nat.pred (length u)) s'
          | None => findall_from O s'
          end
      end
  end.

Definition findall (text : str) : list str := findall_from O text.

Definition allowed_host : str := lit "123rf".

(** [for link in page.get_links(): ...] *)
Fixpoint check_clickable (E : Env) (links : list link) (editorial_links : list str)
  : M (list str) :=
  match links with
  | [] => ret editorial_links
  | l :: links' =>
      match uri l with
      | Some url =>
          let! editorial_status := check_editorial_use E url in
          if is_editorial editorial_status
          then check_clickable E links' (editorial_links ++ [url])
          else check_clickable E links' editorial_links
      | None => check_clickable E links' editorial_links
      end
  end.

(** [for url in found_links: ...] *)
Fixpoint check_found (E : Env) (found_links : list str) (editorial_links : list str)
  : M (list str) :=
  match found_links with
  | [] => ret editorial_links
  | url :: found' =>
      if contains allowed_host url then
        let! editorial_status := check_editorial_use E url in
        if is_editorial editorial_status
        then check_found E found' (editorial_links ++ [url])
        else check_found E found' editorial_links
      else check_found E found' editorial_links
  end.

(** [for page in doc: ...] *)
Fixpoint scan_pages (E : Env) (doc : list page) (editorial_links : list str)
  : M (list str) :=
  match doc with
  | [] => ret editorial_links
  | page :: doc' =>
      let! editorial_links := check_clickable E (get_links page) editorial_links in
      let text := get_text page in
      let found_links := findall text in
      let! editorial_links := check_found E found_links editorial_links in
      scan_pages E doc' editorial_links
  end.

Definition extract_editorial_links_from_pdf (E : Env) (pdf_path : str) : M (list str) :=
  let! doc := fitz_open E pdf_path in
  let editorial_links := [] in
  scan_pages E doc editorial_links.

(** ** process_google_docs_from_excel *)

(** A row of the data frame, as far as the loop reads it. *)
Record row := {
  google_docs_url : value;     (* row['Google Docs URL'] *)
  website_url : value          (* row['Website URL'] *)
}.

(** What [pd.read_excel] returned. *)
Record dataframe := {
  columns : list str;
  rows : list row
}.

(** A dict with the keys [title] and [links]. *)
Record record := {
  title : str;
  links : list str
}.

(** The local variables that live across iterations of the loop;
    [None] is a name not yet bound. *)
Record locals := {
  results : list record;
  formatted_title : option str;
  editorial_links : option (list str)
}.

(** The local variables when the loop starts. *)
Definition no_locals : locals :=
  {| results := []; formatted_title := None; editorial_links := None |}.

(** Reading a local variable. *)
Definition load {A} (name : string) (v : option A) : M A :=
  match v with
  | Some a => ret a
  | None => raise (UnboundLocalError name)
  end.

(** Truth value of [None] or a [str]. *)
Definition truthy (o : option str) : bool :=
  match o with
  | Some (_ :: _) => true
  | _ => false
  end.

Definition has_column (name : str) (cols : list str) : bool :=
  bool_decide (name ∈ cols).

(** [for url in editorial_links: results.append(...)] *)
Fixpoint append_per_link (r : record) (urls : list str) (results : list record)
  : list record :=
  match urls with
  | [] => results
  | _ :: urls' => append_per_link r urls' (results ++ [r])
  end.

(** One iteration of [for index, row in df.iterrows()]. *)
Definition loop_body (E : Env) (r : row) (l : locals) : M locals :=
  let doc_url := google_docs_url r in
  let website_url := website_url r in
  if isna doc_url || isna website_url then
    let! t := load "formatted_title" (formatted_title l) in
    let! ls := load "editorial_links" (editorial_links l) in
    ret {| results := results l ++ [{| title := t; links := ls |}];
           formatted_title := formatted_title l;
           editorial_links := editorial_links l |}
  else
    let file_id := extract_file_id (VStr (py_str doc_url)) in
    if truthy file_id then
      let safe_file_name := sanitize_filename website_url in
      let! pdf_file :=
        download_pdf E (VStr (default [] file_id)) (VStr safe_file_name)
                     default_max_retries in
      if truthy pdf_file then
        let pdf_file := default [] pdf_file in
        let! editorial_links := extract_editorial_links_from_pdf E pdf_file in
        run! os_remove pdf_file in
        match editorial_links with
        | _ :: _ =>
            let formatted_title := replace (lit "_") (lit "/") safe_file_name in
            let rec := {| title := formatted_title; links := editorial_links |} in
            let results := results l ++ [rec] in
            let results := results ++ [rec] in
            let results := append_per_link rec editorial_links results in
            ret {| results := results;
                   formatted_title := Some formatted_title;
                   editorial_links := Some editorial_links |}
        | [] =>
            ret {| results := results l;
                   formatted_title := formatted_title l;
                   editorial_links := Some editorial_links |}
        end
      else ret l
    else ret l.

(** The whole [for] loop. *)
Fixpoint for_rows (E : Env) (rs : list row) (l : locals) : M locals :=
  match rs with
  | [] => ret l
  | r :: rs' =>
      let! l' := loop_body E r l in
      for_rows E rs' l'
  end.

(** The function returns [None] for a data frame without the two
    columns, and the list [results] otherwise. Its argument here is the
    data frame that [pd.read_excel] made of the file. *)
Definition process_google_docs_from_excel (E : Env) (df : dataframe)
  : M (option (list record)) :=
  if negb (has_column (lit "Google Docs URL") (columns df))
     || negb (has_column (lit "Website URL") (columns df))
  then ret None
  else
    let! l := for_rows E (rows df) no_locals in
    ret (Some (results l)).

(** ** What the functions compute, stated without the monad *)

(** A character that [sanitize_filename] does not replace. *)
Definition clean (c : char) : Prop := invalid_char c = false.

(** The state [n] requests later. *)
Definition tick (n : nat) (st : state) : state :=
  {| clock := clock st + n; files := files st |}.

(** The verdict of the classifier on the answer it got; there is none
    when the request raised an exception that the classifier does not
    catch. *)
Definition verdict_of (E : Env) (o : outcome) : option verdict :=
  match o with
  | Responded r =>
      if negb (status_code r =? 200) then Some FailedToRetrieve
      else if contains (lit "editorial use only") (lower E (soup_text E (text r)))
           then Some EditorialUseOnly
           else Some NotEditorial
  | RequestException => Some ErrorFetching
  | OtherError => None
  end.

(** The targets of a page's embedded hyperlinks, in the order the page
    exposes them. *)
Definition clickable (p : page) : list str := omap uri (get_links p).

(** The plain-text URLs of a page that pass the host filter, in the order
    they are found. *)
Definition found_allowed (p : page) : list str :=
  List.filter (contains allowed_host) (findall (get_text p)).

(** The links checked for a document: page after page, and on each page
    the embedded links before the plain-text ones. *)
Definition candidates (doc : list page) : list str :=
  flat_map (fun p => clickable p ++ found_allowed p) doc.

(** The candidates that are confirmed when the first of them is checked
    with request number [t], the next with [t + 1], and so on. *)
Fixpoint confirmed (E : Env) (t : nat) (cands : list str) : list str :=
  match cands with
  | [] => []
  | u :: cands' =>
      match verdict_of E (net E t u) with
      | Some v => if is_editorial v then [u] else []
      | None => []
      end
      ++ confirmed E (S t) cands'
  end.

(** An attempt of [download_pdf] that ends in a [RequestException]: the
    request raises it, or the body of a 200 response does while it is
    written to the file at [path], which has opened. *)
Definition attempt_raises (E : Env) (path : str) (o : outcome) : bool :=
  match o with
  | RequestException => true
  | Responded r => (status_code r =? 200) && can_open E path && stream_breaks r
  | OtherError => false
  end.

(** The path of the file that [download_pdf] writes. *)
Definition pdf_path (file_name : value) : str :=
  sanitize_filename file_name ++ lit ".pdf".

(** The number of bytes of a character and of a string in UTF-8. *)
Definition utf8_size (c : char) : nat :=
  if (c <? 128)%N then 1 else if (c <? 2048)%N then 2
  else if (c <? 65536)%N then 3 else 4.

Definition utf8_length (s : str) : nat :=
  foldr (fun c n => utf8_size c + n)%nat O s.

(** A file system that opens the names of at most 255 bytes. *)
Definition name_fits (path : str) : bool := (utf8_length path <=? 255)%nat.

(** A row with both fields present. *)
Definition fields_present (r : row) : bool :=
  negb (isna (google_docs_url r) || isna (website_url r)).

Definition with_rows (df : dataframe) (rs : list row) : dataframe :=
  {| columns := columns df; rows := rs |}.

(** ** Sample environments *)

Definition ascii_lower (s : str) : str :=
  List.map (fun c => if ((65 <=? c) && (c <=? 90))%N then (c + 32)%N else c) s.

Definition pdf_response (content : bytes) : outcome :=
  Responded {| status_code := 200; text := []; chunks := [content];
               stream_breaks := false |}.

Definition html_response (body : str) : outcome :=
  Responded {| status_code := 200; text := body; chunks := [];
               stream_breaks := false |}.

Definition status_response (code : Z) : outcome :=
  Responded {| status_code := code; text := []; chunks := [];
               stream_breaks := false |}.

(** A network that answers by URL, whatever the time. *)
Fixpoint by_url (table : list (str * outcome)) (url : str) : outcome :=
  match table with
  | [] => RequestException
  | (u, o) :: table' => if bool_decide (u = url) then o else by_url table' url
  end.

(** A network that answers by the number of the request. *)
Definition scripted (script : list outcome) (n : nat) : outcome :=
  nth n script RequestException.

Definition photo_url : str := lit "https://stockhost.example/photo/1".
Definition rf_url : str := lit "https://www.123rf.com/photo_7.html".
Definition other_url : str := lit "https://other.example/x".

Definition sample_doc : list page :=
  [ {| get_links := [ {| uri := Some photo_url |}; {| uri := None |} ];
       get_text := lit "see https://www.123rf.com/photo_7.html and https://other.example/x" |} ].

(** A parser that accepts the files starting with a percent sign. *)
Definition sample_parse (b : bytes) : option (list page) :=
  match b with
  | x25 :: _ => Some sample_doc
  | _ => None
  end.

Definition sample_export_url : str :=
  lit "https://docs.google.com/document/d/ABC123/export?format=pdf".

Definition marked_page : outcome := html_response (lit "Licence: Editorial Use Only").

Definition sample_env : Env :=
  {| net := fun _ => by_url [ (sample_export_url, pdf_response [x25; x50]);
                              (photo_url, marked_page);
                              (rf_url, marked_page);
                              (other_url, marked_page) ];
     fitz_parse := sample_parse;
     soup_text := fun s => s;
     lower := ascii_lower;
     can_open := name_fits |}.

(** The same network, serving a document that does not open. *)
Definition broken_env : Env :=
  {| net := fun _ => by_url [ (sample_export_url, pdf_response [x00]) ];
     fitz_parse := sample_parse;
     soup_text := fun s => s;
     lower := ascii_lower;
     can_open := name_fits |}.

Definition sample_row : row :=
  {| google_docs_url := VStr (lit "https://docs.google.com/document/d/ABC123");
     website_url := VStr (lit "https://site.example/page") |}.

Definition missing_row : row :=
  {| google_docs_url := VNa (lit "nan");
     website_url := VStr (lit "https://site.example/other") |}.

Definition sample_columns : list str :=
  [lit "Google Docs URL"; lit "Website URL"].

Definition sheet (rs : list row) : dataframe :=
  {| columns := sample_columns; rows := rs |}.

Definition start : state := {| clock := O; files := ∅ |}.

Definition outcome_of {A} (x : res A * state) : res A := fst x.
Definition files_after {A} (x : res A * state) : gmap str bytes := files (snd x).


(** The local variables after a row whose document gave the confirmed
    links [ls], [safe] being the sanitized label of the row. *)
Definition emit (l : locals) (safe : str) (ls : list str) : locals :=
  match ls with
  | [] =>
      {| results := results l; formatted_title := formatted_title l;
         editorial_links := Some [] |}
  | _ :: _ =>
      let rec := {| title := replace (lit "_") (lit "/") safe; links := ls |} in
      {| results := results l ++ replicate (2 + length ls) rec;
         formatted_title := Some (title rec);
         editorial_links := Some ls |}
  end.

(** The state after [os.remove(path)]. *)
Definition removed (path : str) (st : state) : state :=
  {| clock := clock st; files := delete path (files st) |}.

(** A network that follows a script, whatever the URL. *)
Definition retry_env (script : list outcome) : Env :=
  {| net := fun n _ => scripted script n;
     fitz_parse := sample_parse;
     soup_text := fun s => s;
     lower := ascii_lower;
     can_open := name_fits |}.

Definition sample_pdf : str := lit "site.example_page.pdf".

(** The state after the sample document has been fetched. *)
Definition fetched : state :=
  {| clock := 1; files := {[ sample_pdf := [x25; x50] ]} |}.

(** The records that a row with both fields appends when it is processed
    from the state [st] and its document has confirmed links: the links
    are those confirmed among the candidates of the fetched document, in
    their order, and the record of the row is appended twice and once
    more for each link. *)
Definition row_block (E : Env) (r : row) (st : state) (block : list record) : Prop :=
  exists (fid p : str) (st1 : state) (b : bytes) (doc : list page) (ls : list str),
    extract_file_id (VStr (py_str (google_docs_url r))) = Some fid
    /\ download_pdf E (VStr fid) (VStr (sanitize_filename (website_url r)))
         default_max_retries st = (Ok (Some p), st1)
    /\ files st1 !! p = Some b
    /\ fitz_parse E b = Some doc
    /\ ls = confirmed E (clock st1) (candidates doc)
    /\ sublist ls (candidates doc)
    /\ ls <> []
    /\ block = replicate (2 + length ls)
                 {| title := replace (lit "_") (lit "/")
                               (sanitize_filename (website_url r));
                    links := ls |}.



Definition sample_record : record :=
  {| title := lit "site.example/page"; links := [photo_url; rf_url] |}.


(** What may follow an identifier in a reference: nothing, or a character
    that is no identifier character. *)
Definition ends_id (rest : str) : Prop :=
  match rest with
  | [] => True
  | c :: _ => id_char c = false
  end.

(** A string without white space at either end. *)
Definition stripped (s : str) : Prop := strip s = s.

(** What is true of the local variables whenever the loop is at the start
    of an iteration: [formatted_title] is bound exactly when a record has
    been appended, it is then the title of the last record, and
    [editorial_links] is bound as well. *)
Definition locals_inv (l : locals) : Prop :=
  match formatted_title l with
  | Some t =>
      is_Some (editorial_links l)
      /\ exists rec, last (results l) = Some rec /\ title rec = t
  | None => results l = []
  end.

(** What can follow a URL in a text: nothing, or white space. *)
Definition ends_url (rest : str) : Prop :=
  match rest with
  | [] => True
  | c :: _ => is_space c = true
  end.

(** A record that the loop appends for a row of its own. *)
Definition emitted (rec : record) : Prop :=
  links rec <> [] /\ underscore ∉ title rec.

(** A character that a label can have without the title differing from
    it: the slash, and whatever is neither replaced by [sanitize_filename]
    nor an underscore. *)
Definition plain_char (c : char) : bool :=
  (c =? 47)%N || negb (invalid_char c) && negb (c =? 95)%N.

(** Sample inputs for the pure functions and the fetcher. *)
Definition foreign_reference : value :=
  VStr (lit "https://example.com/document/d/abc").

Definition edit_reference : value :=
  VStr (lit "see https://docs.google.com/document/d/ABC-1_2/edit").

Definition sample_text : str :=
  lit "see https://www.123rf.com/photo_7.html and https://other.example/x".

Definition broken_body : outcome :=
  Responded {| status_code := 200; text := []; chunks := [[x25]; [x50]];
               stream_breaks := true |}.

Definition unreferenced_row : row :=
  {| google_docs_url := VStr (lit "no reference");
     website_url := VOther (lit "42") |}.

Definition unreachable_row : row :=
  {| google_docs_url := VStr (lit "https://docs.google.com/document/d/ZZZ/edit");
     website_url := VStr (lit "https://site.example/gone") |}.

(** The local variables after the sample row. *)
Definition sample_locals : locals :=
  {| results := [sample_record; sample_record; sample_record; sample_record];
     formatted_title := Some (title sample_record);
     editorial_links := Some (links sample_record) |}.

(** The state after an attempt of the loop that ended in a
    [RequestException]. *)
Definition after_attempt (fn : str) (o : outcome) (st : state) : state :=
  match o with
  | Responded r =>
      {| clock := S (clock st); files := <[fn := concat (chunks r)]> (files st) |}
  | _ => {| clock := S (clock st); files := files st |}
  end.


(** What the checks of a list of candidates give, the first of them made
    with request number [t], starting from the links [acc]: the links
    after the last check, or the exception of the first request that
    raises one, and the number of requests made. *)
Fixpoint scan_result (E : Env) (t : nat) (cands : list str) (acc : list str)
  : res (list str) * nat :=
  match cands with
  | [] => (Ok acc, O)
  | u :: cands' =>
      match verdict_of E (net E t u) with
      | Some v =>
          let (r, n) :=
            scan_result E (S t) cands' (if is_editorial v then acc ++ [u] else acc) in
          (r, S n)
      | None => (Raise (OtherRequestError u), 1%nat)
      end
  end.

(** No request for a candidate raises an exception that the classifier
    does not catch, the first candidate being checked with request
    number [t]. *)
Definition no_crash (E : Env) (t : nat) (cands : list str) : Prop :=
  forall i u, cands !! i = Some u -> net E (t + i) u <> OtherError.



(** The record of a row whose document gave the links [ls]. *)
Definition record_of (r : row) (ls : list str) : record :=
  {| title := replace (lit "_") (lit "/") (sanitize_filename (website_url r));
     links := ls |}.

(** The records that the iteration for the row [r] appends when it
    returns, the loop being at the local variables [l] and the state
    [st]. A row with both fields whose document is fetched and opens
    gives, when some of its candidates are confirmed, its record twice
    and once more for each confirmed link; the links of the record are
    the candidates confirmed, in the order of [candidates]. A row with a
    missing field gives one record made of the last title and links. Any
    other row gives nothing. *)
Definition block_of (E : Env) (r : row) (l : locals) (st : state) : list record :=
  if fields_present r then
    match extract_file_id (VStr (py_str (google_docs_url r))) with
    | Some fid =>
        match download_pdf E (VStr fid) (VStr (sanitize_filename (website_url r)))
                default_max_retries st with
        | (Ok (Some p), st1) =>
            match files st1 !! p with
            | Some b =>
                match fitz_parse E b with
                | Some doc =>
                    match confirmed E (clock st1) (candidates doc) with
                    | [] => []
                    | u :: ls => replicate (2 + length (u :: ls)) (record_of r (u :: ls))
                    end
                | None => []
                end
            | None => []
            end
        | _ => []
        end
    | None => []
    end
  else
    match formatted_title l, editorial_links l with
    | Some t, Some ls => [{| title := t; links := ls |}]
    | _, _ => []
    end.

(** A label of 84 characters of three bytes each: with [.pdf] the name
    of its file has 256 bytes. *)
Definition long_label : str := replicate 84 20013%N.

Definition long_row : row :=
  {| google_docs_url := VStr (lit "https://docs.google.com/document/d/ABC123");
     website_url := VStr long_label |}.

(** A URL in a page text that is followed by an ellipsis: urllib3
    refuses its host. *)
Definition dotted_url : str := lit "https://www.123rf.com...".

Definition dotted_doc : list page :=
  [ {| get_links := [ {| uri := Some photo_url |} ];
       get_text := lit "more at https://www.123rf.com..." |} ].

Definition dotted_env : Env :=
  {| net := fun _ => by_url [ (sample_export_url, pdf_response [x25; x50]);
                              (photo_url, marked_page);
                              (dotted_url, OtherError) ];
     fitz_parse := fun _ => Some dotted_doc;
     soup_text := fun s => s;
     lower := ascii_lower;
     can_open := name_fits |}.

(** Two documents and a sheet of three rows, the second of which has no
    document reference. *)
Definition second_url : str := lit "https://www.123rf.com/photo_9.html".

Definition second_doc : list page :=
  [ {| get_links := [];
       get_text := lit "only https://www.123rf.com/photo_9.html here" |} ].

Definition second_export_url : str :=
  lit "https://docs.google.com/document/d/DEF456/export?format=pdf".

Definition two_docs_parse (b : bytes) : option (list page) :=
  match b with
  | x25 :: x31 :: _ => Some sample_doc
  | x25 :: x32 :: _ => Some second_doc
  | _ => None
  end.

Definition two_docs_env : Env :=
  {| net := fun _ => by_url [ (sample_export_url, pdf_response [x25; x31]);
                              (second_export_url, pdf_response [x25; x32]);
                              (photo_url, marked_page);
                              (rf_url, marked_page);
                              (second_url, marked_page) ];
     fitz_parse := two_docs_parse;
     soup_text := fun s => s;
     lower := ascii_lower;
     can_open := name_fits |}.

Definition second_row : row :=
  {| google_docs_url := VStr (lit "https://docs.google.com/document/d/DEF456/edit");
     website_url := VStr (lit "http://site.example/second") |}.

Definition second_record : record :=
  {| title := lit "site.example/second"; links := [second_url] |}.

Definition three_rows : list row :=
  [ sample_row;
    {| google_docs_url := VStr (lit "no reference");
       website_url := VOther (lit "42") |};
    second_row ].

(** * Properties *)

Ltac run_step := unfold bind, http_get, write_file, ret, raise; simpl.

(** ** Strings *)

Lemma strip_prefix_Some (p s rest : str) :
  strip_prefix p s = Some rest -> s = p ++ rest.
Proof.
  revert s. induction p as [|a p IH]; intros [|b s] H; simpl in H;
    try discriminate; try (injection H as <-; reflexivity).
  destruct (N.eqb_spec a b) as [->|]; [|discriminate].
  simpl. f_equal. auto.
Qed.

Lemma starts_with_clean (old s : str) (c : char) :
  In c old -> invalid_char c = true -> Forall clean s -> starts_with old s = false.
Proof.
  intros Hin Hc Hs. unfold starts_with.
  destruct (strip_prefix old s) as [rest|] eqn:Hp; [|reflexivity].
  apply strip_prefix_Some in Hp. subst s.
  apply Forall_app in Hs as [Hold _].
  rewrite Forall_forall in Hold.
  apply list_elem_of_In in Hin. specialize (Hold c Hin).
  unfold clean in Hold. congruence.
Qed.

Lemma replace_clean (old new s : str) (c : char) :
  In c old -> invalid_char c = true -> Forall clean s -> replace old new s = s.
Proof.
  intros Hin Hc. unfold replace.
  induction s as [|a s IH]; intros Hs; [reflexivity|].
  simpl. rewrite (starts_with_clean old (a :: s) c Hin Hc Hs).
  f_equal. apply IH. by inversion Hs.
Qed.

Lemma sub_invalid_clean (s : str) : Forall clean (sub_invalid s).
Proof.
  unfold sub_invalid. apply Forall_forall. intros c Hc.
  apply list_elem_of_In, in_map_iff in Hc as (a & <- & _).
  unfold clean. destruct (invalid_char a) eqn:Ha; [reflexivity | exact Ha].
Qed.

Lemma sub_invalid_id (s : str) : Forall clean s -> sub_invalid s = s.
Proof.
  unfold sub_invalid. induction 1 as [|c s Hc _ IH]; [reflexivity|].
  simpl. rewrite Hc. by f_equal.
Qed.

Lemma lstrip_suffix (s : str) : exists k, lstrip s = drop k s.
Proof.
  induction s as [|c s [k IH]]; [by exists O|].
  simpl. destruct (is_space c); [by exists (S k) | by exists O].
Qed.

Lemma lstrip_clean (s : str) : Forall clean s -> Forall clean (lstrip s).
Proof. intros H. destruct (lstrip_suffix s) as [k ->]. by apply Forall_drop. Qed.

Lemma lstrip_length (s : str) : (length (lstrip s) <= length s)%nat.
Proof. destruct (lstrip_suffix s) as [k ->]. rewrite length_drop. lia. Qed.

Lemma strip_clean (s : str) : Forall clean s -> Forall clean (strip s).
Proof.
  intros H. unfold strip, rstrip.
  apply Forall_rev, lstrip_clean, Forall_rev, lstrip_clean, H.
Qed.

Lemma strip_length (s : str) : (length (strip s) <= length s)%nat.
Proof.
  unfold strip, rstrip. rewrite length_rev.
  etrans; [apply lstrip_length|]. rewrite length_rev. apply lstrip_length.
Qed.

(** ** sanitize_filename *)

Lemma sanitize_filename_clean (v : value) : Forall clean (sanitize_filename v).
Proof.
  unfold sanitize_filename.
  destruct (negb (isinstance_str v) || isna v).
  - unfold clean. vm_compute. repeat constructor.
  - apply Forall_take, sub_invalid_clean.
Qed.

Lemma sanitize_filename_length (v : value) :
  (length (sanitize_filename v) <= 200)%nat.
Proof.
  unfold sanitize_filename.
  destruct (negb (isinstance_str v) || isna v).
  - vm_compute. lia.
  - rewrite length_take. lia.
Qed.

(** Sanitizing a name that has none of the replaced characters and at most
    200 characters only strips it. *)
Lemma sanitize_filename_of_clean (s : str) :
  Forall clean s -> (length s <= 200)%nat ->
  sanitize_filename (VStr s) = strip s.
Proof.
  intros Hs Hlen. unfold sanitize_filename. simpl.
  pose proof (strip_clean s Hs) as Hc.
  rewrite (replace_clean (lit "https://") [] (strip s) 58%N); [|simpl; tauto|reflexivity|exact Hc].
  rewrite (replace_clean (lit "http://") [] (strip s) 58%N); [|simpl; tauto|reflexivity|exact Hc].
  rewrite sub_invalid_id by exact Hc.
  apply take_ge. pose proof (strip_length s). lia.
Qed.

(** C7 (as the code has it): [sanitize_filename] returns the placeholder
    [Untitled] for every argument that is not a string or is missing; for
    the empty string it returns the empty string. *)
Theorem sanitize_filename_placeholder (repr : str) :
  sanitize_filename (VNa repr) = lit "Untitled"
  /\ sanitize_filename (VOther repr) = lit "Untitled"
  /\ sanitize_filename (VStr []) = [].
Proof. repeat split. Qed.

(** C7, counterexample: the empty string is a string, so the guard lets it
    through and the result is empty, not the placeholder. *)
Lemma sanitize_filename_empty_not_placeholder :
  sanitize_filename (VStr (lit "")) <> lit "Untitled".
Proof. vm_compute. discriminate. Qed.

(** C8 (as the code has it): a second application of [sanitize_filename]
    only strips the white space at both ends of the first result, so the
    function is idempotent exactly at the inputs whose sanitized name
    neither starts nor ends with white space. *)
Theorem sanitize_filename_twice (v : value) :
  sanitize_filename (VStr (sanitize_filename v)) = strip (sanitize_filename v)
  /\ (sanitize_filename (VStr (sanitize_filename v)) = sanitize_filename v
      <-> strip (sanitize_filename v) = sanitize_filename v).
Proof.
  assert (sanitize_filename (VStr (sanitize_filename v)) = strip (sanitize_filename v)) as H.
  { apply sanitize_filename_of_clean;
      [apply sanitize_filename_clean | apply sanitize_filename_length]. }
  split; [exact H|]. rewrite H. reflexivity.
Qed.

(** C8, counterexample: removing the scheme uncovers a space that the
    first application has already passed; the second one strips it. *)
Lemma sanitize_filename_not_idempotent :
  sanitize_filename (VStr (lit "https:// a")) = lit " a"
  /\ sanitize_filename (VStr (sanitize_filename (VStr (lit "https:// a")))) = lit "a"
  /\ sanitize_filename (VStr (sanitize_filename (VStr (lit "https:// a"))))
     <> sanitize_filename (VStr (lit "https:// a")).
Proof. vm_compute. repeat split. discriminate. Qed.

(** ** download_pdf *)

(** The loop never runs out of fuel: any two amounts that cover the
    retries still allowed give the same run. *)
Lemma download_loop_fuel E url fn max_retries (f1 f2 : nat) (rc : Z) (st : state) :
  (Z.to_nat (max_retries - rc) <= f1)%nat ->
  (Z.to_nat (max_retries - rc) <= f2)%nat ->
  download_loop E url fn max_retries f1 rc st
  = download_loop E url fn max_retries f2 rc st.
Proof.
  revert f2 rc st. induction f1 as [|f1 IH]; intros [|f2] rc st H1 H2; simpl;
    destruct (Z.ltb_spec rc max_retries) as [Hlt|Hge]; try reflexivity; try lia.
  run_step.
  destruct (net E (clock st) url) as [r| |]; [|apply IH; lia|reflexivity].
  destruct (status_code r =? 200); [|reflexivity].
  destruct (can_open E fn); [|reflexivity]. simpl.
  destruct (stream_breaks r); [apply IH; lia | reflexivity].
Qed.

(** One iteration of the loop whose attempt ends in a
    [RequestException]: the loop goes on with one retry less. *)
Lemma download_loop_retry E url fn max_retries (fuel : nat) (rc : Z) (st : state) :
  rc < max_retries ->
  attempt_raises E fn (net E (clock st) url) = true ->
  download_loop E url fn max_retries (S fuel) rc st
  = download_loop E url fn max_retries fuel (rc + 1)
      (after_attempt fn (net E (clock st) url) st).
Proof.
  intros Hlt Hraise. simpl.
  destruct (Z.ltb_spec rc max_retries) as [_|]; [|lia]. run_step.
  destruct (net E (clock st) url) as [r| |]; simpl in *; [|reflexivity|discriminate].
  apply andb_prop in Hraise as [Hraise ->]. apply andb_prop in Hraise as [-> ->].
  reflexivity.
Qed.

Lemma after_attempt_clock fn o st : clock (after_attempt fn o st) = S (clock st).
Proof. by destruct o. Qed.

Lemma after_attempt_files fn o st (q : str) :
  q <> fn -> files (after_attempt fn o st) !! q = files st !! q.
Proof. intros Hq. destruct o; simpl; [by rewrite lookup_insert_ne | done | done]. Qed.

(** A response with another status than 200 ends the loop at once,
    however many attempts before it ended in a [RequestException]. *)
Lemma download_loop_status E url fn max_retries (k : nat) :
  forall (fuel : nat) (rc : Z) (st : state) (r : response),
    (k < Z.to_nat (max_retries - rc))%nat ->
    (Z.to_nat (max_retries - rc) <= fuel)%nat ->
    (forall j, (j < k)%nat -> attempt_raises E fn (net E (clock st + j) url) = true) ->
    net E (clock st + k) url = Responded r ->
    status_code r <> 200 ->
    exists st', download_loop E url fn max_retries fuel rc st = (Ok None, st')
                /\ clock st' = (clock st + k + 1)%nat.
Proof.
  induction k as [|k IH]; intros fuel rc st r Hk Hfuel Hraise Hnet Hstatus;
    (destruct fuel as [|fuel]; [lia|]).
  - simpl. destruct (Z.ltb_spec rc max_retries) as [Hlt|Hge]; [|lia]. run_step.
    rewrite Nat.add_0_r in Hnet. rewrite Hnet.
    destruct (Z.eqb_spec (status_code r) 200) as [|_]; [contradiction|].
    eexists; split; [reflexivity|]. simpl. lia.
  - pose proof (Hraise O ltac:(lia)) as H0. rewrite Nat.add_0_r in H0.
    rewrite download_loop_retry by (assumption || lia).
    destruct (IH fuel (rc + 1) (after_attempt fn (net E (clock st) url) st) r)
      as (st' & -> & Hclock); try lia; try assumption.
    { intros j Hj. rewrite after_attempt_clock.
      replace (S (clock st) + j)%nat with (clock st + S j)%nat by lia.
      apply Hraise. lia. }
    { rewrite after_attempt_clock.
      replace (S (clock st) + k)%nat with (clock st + S k)%nat by lia. exact Hnet. }
    eexists; split; [reflexivity|]. rewrite after_attempt_clock in Hclock. lia.
Qed.

(** When every attempt ends in a [RequestException], the loop makes as
    many attempts as retries are allowed, and then gives up. *)
Lemma download_loop_exhausted E url fn max_retries (n : nat) :
  forall (fuel : nat) (rc : Z) (st : state),
    n = Z.to_nat (max_retries - rc) ->
    (n <= fuel)%nat ->
    (forall j, (j < n)%nat -> attempt_raises E fn (net E (clock st + j) url) = true) ->
    exists st', download_loop E url fn max_retries fuel rc st = (Ok None, st')
                /\ clock st' = (clock st + n)%nat.
Proof.
  induction n as [|n IH]; intros fuel rc st Hn Hfuel Hraise.
  - exists st. split; [|lia].
    destruct fuel; simpl; destruct (Z.ltb_spec rc max_retries); try reflexivity; lia.
  - destruct fuel as [|fuel]; [lia|].
    pose proof (Hraise O ltac:(lia)) as H0. rewrite Nat.add_0_r in H0.
    rewrite download_loop_retry by (assumption || lia).
    destruct (IH fuel (rc + 1) (after_attempt fn (net E (clock st) url) st))
      as (st' & -> & Hclock); try lia.
    { intros j Hj. rewrite after_attempt_clock.
      replace (S (clock st) + j)%nat with (clock st + S j)%nat by lia.
      apply Hraise. lia. }
    eexists; split; [reflexivity|]. rewrite after_attempt_clock in Hclock. lia.
Qed.

(** What a successful loop leaves behind: the path it was given, a file
    there, and every other path as it was. *)
Lemma download_loop_success E url fn max_retries (fuel : nat) :
  forall (rc : Z) (st st' : state) (p : str),
    download_loop E url fn max_retries fuel rc st = (Ok (Some p), st') ->
    p = fn
    /\ is_Some (files st' !! fn)
    /\ forall q, q <> fn -> files st' !! q = files st !! q.
Proof.
  induction fuel as [|fuel IH]; intros rc st st' p; simpl;
    destruct (rc <? max_retries); try discriminate.
  run_step.
  destruct (net E (clock st) url) as [r| |]; [|intros H|discriminate].
  - destruct (status_code r =? 200); [|discriminate].
    destruct (can_open E fn); [|discriminate]. simpl.
    destruct (stream_breaks r); intros H.
    + apply IH in H as (-> & Hfile & Hother). repeat split; [assumption|].
      intros q Hq. rewrite Hother by assumption. simpl. by rewrite lookup_insert_ne.
    + injection H as <- <-. simpl. repeat split.
      * rewrite lookup_insert_eq. eauto.
      * intros q Hq. by rewrite lookup_insert_ne.
  - apply IH in H as (-> & Hfile & Hother). repeat split; [assumption|].
    intros q Hq. by rewrite Hother.
Qed.

(** C6: [download_pdf] returns the failure result as soon as a response
    has another status than 200, with no attempt after it (after exactly
    one attempt when it is the first response); when every attempt ends
    in a transport exception it makes exactly [max_retries] attempts and
    then returns the failure result; the default bound is 3. The number
    of attempts is the advance of the request clock. *)
Theorem download_pdf_retry_policy E (file_id file_name : value) (max_retries : Z)
    (st : state) :
  (forall (k : nat) (r : response),
      (k < Z.to_nat max_retries)%nat ->
      (forall j, (j < k)%nat ->
         attempt_raises E (pdf_path file_name)
           (net E (clock st + j) (pdf_export_url file_id)) = true) ->
      net E (clock st + k) (pdf_export_url file_id) = Responded r ->
      status_code r <> 200 ->
      exists st', download_pdf E file_id file_name max_retries st = (Ok None, st')
                  /\ clock st' = (clock st + k + 1)%nat)
  /\ ((forall j, (j < Z.to_nat max_retries)%nat ->
         attempt_raises E (pdf_path file_name)
           (net E (clock st + j) (pdf_export_url file_id)) = true) ->
      exists st', download_pdf E file_id file_name max_retries st = (Ok None, st')
                  /\ clock st' = (clock st + Z.to_nat max_retries)%nat)
  /\ Z.to_nat default_max_retries = 3%nat.
Proof.
  unfold download_pdf, pdf_path. repeat split.
  - intros k r Hk Hraise Hnet Hstatus.
    apply (download_loop_status E _ _ max_retries k _ 0 st r); try assumption.
    + by rewrite Z.sub_0_r.
    + rewrite Z.sub_0_r. lia.
  - intros Hraise.
    apply (download_loop_exhausted E _ _ max_retries); try assumption.
    + by rewrite Z.sub_0_r.
    + lia.
Qed.

(** C10: [download_pdf] sanitizes the file name it is given: when it
    succeeds, the path it returns is [sanitize_filename file_name] followed
    by [.pdf], a file exists at that path, and no other path of the file
    system has changed. *)
Theorem download_pdf_sanitizes_name E (file_id file_name : value) (max_retries : Z)
    (st st' : state) (p : str) :
  download_pdf E file_id file_name max_retries st = (Ok (Some p), st') ->
  p = sanitize_filename file_name ++ lit ".pdf"
  /\ is_Some (files st' !! p)
  /\ forall q, q <> p -> files st' !! q = files st !! q.
Proof.
  unfold download_pdf. intros H.
  apply download_loop_success in H as (-> & Hfile & Hother). auto.
Qed.


(** ** check_editorial_use and extract_editorial_links_from_pdf *)

Lemma tick_0 st : tick 0 st = st.
Proof. destruct st. unfold tick. simpl. f_equal. lia. Qed.

Lemma tick_tick n m st : tick m (tick n st) = tick (n + m) st.
Proof. unfold tick. simpl. f_equal. lia. Qed.

Lemma tick_S n st : tick n (tick 1 st) = tick (S n) st.
Proof. by rewrite tick_tick. Qed.

Lemma verdict_of_None E (o : outcome) : verdict_of E o = None <-> o = OtherError.
Proof.
  destruct o as [r| |]; simpl; [|done|done].
  destruct (negb _); [done|]. by destruct (contains _ _).
Qed.

Lemma check_editorial_use_spec E (url : str) (st : state) :
  check_editorial_use E url st
  = (match verdict_of E (net E (clock st) url) with
     | Some v => Ok v
     | None => Raise (OtherRequestError url)
     end, tick 1 st).
Proof.
  unfold check_editorial_use, verdict_of, tick. run_step.
  replace (clock st + 1)%nat with (S (clock st)) by lia.
  destruct (net E (clock st) url) as [r| |]; try reflexivity.
  destruct (negb (status_code r =? 200)); [reflexivity|].
  destruct (contains _ _); reflexivity.
Qed.

Lemma confirmed_app E (t : nat) (a b : list str) :
  confirmed E t (a ++ b) = confirmed E t a ++ confirmed E (t + length a) b.
Proof.
  revert t. induction a as [|u a IH]; intros t; simpl.
  - by rewrite Nat.add_0_r.
  - rewrite IH, <- app_assoc. do 3 f_equal. lia.
Qed.

Lemma confirmed_sublist E (t : nat) (cands : list str) :
  sublist (confirmed E t cands) cands.
Proof.
  revert t. induction cands as [|u cands IH]; intros t; simpl; [constructor|].
  destruct (verdict_of E (net E t u)) as [v|]; [destruct (is_editorial v)|]; simpl;
    [apply sublist_skip | apply sublist_cons | apply sublist_cons]; apply IH.
Qed.

Lemma scan_result_app E (a b : list str) :
  forall (t : nat) (acc : list str),
    scan_result E t (a ++ b) acc
    = match scan_result E t a acc with
      | (Ok acc', n) =>
          let (r, m) := scan_result E (t + n) b acc' in (r, (n + m)%nat)
      | (Raise e, n) => (Raise e, n)
      end.
Proof.
  induction a as [|u a IH]; intros t acc; simpl.
  - rewrite Nat.add_0_r. by destruct (scan_result E t b acc).
  - destruct (verdict_of E (net E t u)) as [v|]; [|reflexivity].
    rewrite IH.
    destruct (scan_result E (S t) a _) as [[acc'|e] n]; [|reflexivity].
    replace (t + S n)%nat with (S t + n)%nat by lia.
    by destruct (scan_result E (S t + n) b acc').
Qed.

(** A scan that returns has met no exception: it gives the confirmed
    candidates after one request for each. *)
Lemma scan_result_ok E (cands : list str) :
  forall (t : nat) (acc ls : list str) (n : nat),
    scan_result E t cands acc = (Ok ls, n) ->
    ls = acc ++ confirmed E t cands /\ n = length cands /\ no_crash E t cands.
Proof.
  induction cands as [|u cands IH]; intros t acc ls n; simpl.
  - intros [= <- <-]. rewrite app_nil_r. repeat split. by intros i u.
  - destruct (verdict_of E (net E t u)) as [v|] eqn:Hv; [|discriminate].
    destruct (scan_result E (S t) cands _) as [r m] eqn:Hrest.
    intros [= -> <-]. apply IH in Hrest as (-> & -> & Hno).
    repeat split.
    + destruct (is_editorial v); by rewrite <- ?app_assoc.
    + intros [|i] w Hi.
      * injection Hi as <-. rewrite Nat.add_0_r. intros Hnet. rewrite Hnet in Hv. discriminate.
      * replace (t + S i)%nat with (S t + i)%nat by lia. by apply Hno.
Qed.

Lemma scan_result_no_crash E (cands : list str) :
  forall (t : nat) (acc : list str),
    no_crash E t cands ->
    scan_result E t cands acc = (Ok (acc ++ confirmed E t cands), length cands).
Proof.
  induction cands as [|u cands IH]; intros t acc Hno; simpl.
  - by rewrite app_nil_r.
  - destruct (verdict_of E (net E t u)) as [v|] eqn:Hv.
    + rewrite IH.
      * destruct (is_editorial v); by rewrite <- ?app_assoc.
      * intros i w Hi. replace (S t + i)%nat with (t + S i)%nat by lia. by apply Hno.
    + apply verdict_of_None in Hv. specialize (Hno O u eq_refl).
      rewrite Nat.add_0_r in Hno. contradiction.
Qed.


Lemma omap_cons_eq {A B} (f : A -> option B) (x : A) (l : list A) :
  omap f (x :: l) = match f x with Some y => y :: omap f l | None => omap f l end.
Proof. reflexivity. Qed.

Lemma clock_tick_1 st : clock (tick 1 st) = S (clock st).
Proof. unfold tick. simpl. lia. Qed.

Lemma check_clickable_spec E (ls : list link) :
  forall (acc : list str) (st : state),
    check_clickable E ls acc st
    = (fst (scan_result E (clock st) (omap uri ls) acc),
       tick (snd (scan_result E (clock st) (omap uri ls) acc)) st).
Proof.
  induction ls as [|l ls IH]; intros acc st.
  - simpl. by rewrite tick_0.
  - cbn [check_clickable]. rewrite omap_cons_eq.
    destruct (uri l) as [url|]; [|apply IH].
    cbn [scan_result]. unfold bind. rewrite check_editorial_use_spec.
    destruct (verdict_of E (net E (clock st) url)) as [v|]; [|reflexivity].
    destruct (is_editorial v); rewrite IH, clock_tick_1;
      destruct (scan_result E (S (clock st)) (omap uri ls) _) as [r n];
      cbn [fst snd]; by rewrite tick_S.
Qed.

Lemma check_found_spec E (found : list str) :
  forall (acc : list str) (st : state),
    check_found E found acc st
    = (fst (scan_result E (clock st) (List.filter (contains allowed_host) found) acc),
       tick (snd (scan_result E (clock st)
                    (List.filter (contains allowed_host) found) acc)) st).
Proof.
  induction found as [|url found IH]; intros acc st.
  - simpl. by rewrite tick_0.
  - cbn [check_found List.filter].
    destruct (contains allowed_host url); [|apply IH].
    cbn [scan_result]. unfold bind. rewrite check_editorial_use_spec.
    destruct (verdict_of E (net E (clock st) url)) as [v|]; [|reflexivity].
    destruct (is_editorial v); rewrite IH, clock_tick_1;
      destruct (scan_result E (S (clock st)) _ _) as [r n];
      cbn [fst snd]; by rewrite tick_S.
Qed.

Lemma candidates_cons (p : page) (doc : list page) :
  candidates (p :: doc) = clickable p ++ found_allowed p ++ candidates doc.
Proof. unfold candidates. simpl. by rewrite <- app_assoc. Qed.

(** The page loop checks the candidates of the document one request
    after the other, in their order. *)
Lemma scan_pages_spec E (doc : list page) :
  forall (acc : list str) (st : state),
    scan_pages E doc acc st
    = (fst (scan_result E (clock st) (candidates doc) acc),
       tick (snd (scan_result E (clock st) (candidates doc) acc)) st).
Proof.
  induction doc as [|p doc IH]; intros acc st.
  - simpl. by rewrite tick_0.
  - cbn [scan_pages]. unfold bind.
    rewrite check_clickable_spec, candidates_cons, scan_result_app.
    fold (clickable p).
    destruct (scan_result E (clock st) (clickable p) acc) as [[acc1|e] n1];
      [|reflexivity].
    cbn [fst snd]. rewrite check_found_spec, scan_result_app.
    fold (found_allowed p). simpl clock.
    destruct (scan_result E (clock st + n1) (found_allowed p) acc1) as [[acc2|e] n2];
      cbn [fst snd]; [|by rewrite tick_tick].
    rewrite IH, tick_tick. simpl clock.
    replace (clock st + (n1 + n2))%nat with (clock st + n1 + n2)%nat by lia.
    destruct (scan_result E (clock st + n1 + n2) (candidates doc) acc2) as [r n3].
    cbn [fst snd]. rewrite tick_tick. by rewrite Nat.add_assoc.
Qed.

(** What extraction does with a file that opens. *)
Lemma extract_editorial_links_eval E (path : str) (st : state) (b : bytes)
    (doc : list page) :
  files st !! path = Some b ->
  fitz_parse E b = Some doc ->
  extract_editorial_links_from_pdf E path st
  = (fst (scan_result E (clock st) (candidates doc) []),
     tick (snd (scan_result E (clock st) (candidates doc) [])) st).
Proof.
  intros Hfile Hparse. unfold extract_editorial_links_from_pdf, bind, fitz_open.
  rewrite Hfile, Hparse. apply scan_pages_spec.
Qed.

Lemma extract_editorial_links_spec E (path : str) (st : state) (b : bytes)
    (doc : list page) :
  files st !! path = Some b ->
  fitz_parse E b = Some doc ->
  no_crash E (clock st) (candidates doc) ->
  extract_editorial_links_from_pdf E path st
  = (Ok (confirmed E (clock st) (candidates doc)), tick (length (candidates doc)) st).
Proof.
  intros Hfile Hparse Hno.
  rewrite (extract_editorial_links_eval E path st b doc Hfile Hparse).
  by rewrite scan_result_no_crash.
Qed.

Lemma extract_editorial_links_raises E (path : str) (st : state) (b : bytes) :
  files st !! path = Some b ->
  fitz_parse E b = None ->
  extract_editorial_links_from_pdf E path st = (Raise (FileDataError path), st).
Proof.
  intros Hfile Hparse. unfold extract_editorial_links_from_pdf, bind, fitz_open.
  by rewrite Hfile, Hparse.
Qed.

(** A returning extraction has opened its document. *)
Lemma extract_editorial_links_inv E (path : str) (st st' : state) (ls : list str) :
  extract_editorial_links_from_pdf E path st = (Ok ls, st') ->
  exists b doc, files st !! path = Some b /\ fitz_parse E b = Some doc
                /\ ls = confirmed E (clock st) (candidates doc)
                /\ st' = tick (length (candidates doc)) st.
Proof.
  intros H.
  destruct (files st !! path) as [b|] eqn:Hfile;
    [|unfold extract_editorial_links_from_pdf, bind, fitz_open in H;
      rewrite Hfile in H; discriminate].
  destruct (fitz_parse E b) as [doc|] eqn:Hparse.
  - rewrite (extract_editorial_links_eval E path st b doc Hfile Hparse) in H.
    destruct (scan_result E (clock st) (candidates doc) []) as [r n] eqn:Hscan.
    simpl in H. injection H as -> <-.
    apply scan_result_ok in Hscan as (-> & -> & _). by exists b, doc.
  - rewrite (extract_editorial_links_raises E path st b Hfile Hparse) in H.
    discriminate.
Qed.

(** Extraction changes no file, whatever its result. *)
Lemma extract_editorial_links_files E (path : str) (st : state) :
  files (snd (extract_editorial_links_from_pdf E path st)) = files st.
Proof.
  destruct (files st !! path) as [b|] eqn:Hfile.
  - destruct (fitz_parse E b) as [doc|] eqn:Hparse.
    + by rewrite (extract_editorial_links_eval E path st b doc Hfile Hparse).
    + by rewrite (extract_editorial_links_raises E path st b Hfile Hparse).
  - unfold extract_editorial_links_from_pdf, bind, fitz_open. by rewrite Hfile.
Qed.

(** C5 (as the code has it): every link that the extractor returns is the
    target of an embedded hyperlink of the document, whatever its host,
    or a plain-text URL of the document that contains the allowed-host
    substring; a plain-text URL without it is returned only if it is also
    the target of an embedded hyperlink. *)
Theorem extracted_links_origin E (path : str) (st st' : state) (ls : list str) :
  extract_editorial_links_from_pdf E path st = (Ok ls, st') ->
  exists b doc,
    files st !! path = Some b /\ fitz_parse E b = Some doc
    /\ forall u, u ∈ ls ->
         (exists p, p ∈ doc /\ u ∈ clickable p)
         \/ (contains allowed_host u = true
             /\ exists p, p ∈ doc /\ u ∈ findall (get_text p)).
Proof.
  intros H. apply extract_editorial_links_inv in H as (b & doc & Hb & Hdoc & -> & _).
  exists b, doc. repeat split; try assumption.
  intros u Hu.
  pose proof (elem_of_sublist _ _ _ Hu (confirmed_sublist E _ _)) as Hc.
  unfold candidates in Hc.
  apply list_elem_of_In, in_flat_map in Hc as (p & Hp & Hin).
  apply list_elem_of_In in Hp. apply in_app_or in Hin as [Hin|Hin].
  - left. exists p. split; [assumption|]. by apply list_elem_of_In.
  - right. unfold found_allowed in Hin. apply filter_In in Hin as [Hin Hhost].
    split; [assumption|]. exists p. split; [assumption|]. by apply list_elem_of_In.
Qed.

(** C5, counterexample: the embedded hyperlink of the sample document
    points to another host; its page carries the marker, and the
    extractor returns it. *)
Lemma embedded_link_not_filtered :
  outcome_of (extract_editorial_links_from_pdf sample_env sample_pdf fetched)
  = Ok [photo_url; rf_url]
  /\ contains allowed_host photo_url = false.
Proof. split; vm_compute; reflexivity. Qed.

(** ** process_google_docs_from_excel *)

Lemma append_per_link_spec (r : record) (urls : list str) :
  forall res, append_per_link r urls res = res ++ replicate (length urls) r.
Proof.
  induction urls as [|u urls IH]; intros res; simpl.
  - by rewrite app_nil_r.
  - by rewrite IH, <- app_assoc.
Qed.

Lemma search_file_id_nonempty (s id : str) :
  search_file_id s = Some id -> id <> [].
Proof.
  induction s as [|c s IH]; [discriminate|]. cbn [search_file_id].
  destruct (strip_prefix doc_prefix (c :: s)) as [rest|]; [|exact IH].
  destruct (take_while id_char rest) as [|a w]; [exact IH|].
  intros H. injection H as <-. discriminate.
Qed.

Lemma extract_file_id_truthy (v : value) (fid : str) :
  extract_file_id v = Some fid -> truthy (Some fid) = true.
Proof.
  unfold extract_file_id. destruct (negb _ || _); [discriminate|].
  intros H. apply search_file_id_nonempty in H. by destruct fid.
Qed.

Lemma download_pdf_success E (file_id file_name : value) (max_retries : Z)
    (st st' : state) (p : str) :
  download_pdf E file_id file_name max_retries st = (Ok (Some p), st') ->
  p = sanitize_filename file_name ++ lit ".pdf"
  /\ is_Some (files st' !! p)
  /\ forall q, q <> p -> files st' !! q = files st !! q.
Proof.
  unfold download_pdf. intros H.
  apply download_loop_success in H as (-> & Hfile & Hother). auto.
Qed.


Lemma pdf_path_truthy (name : str) : truthy (Some (name ++ lit ".pdf")) = true.
Proof. by destruct name. Qed.

(** An iteration for a row with a missing field. *)
Lemma loop_body_missing E (r : row) (l : locals) (st : state) :
  fields_present r = false ->
  loop_body E r l st
  = match formatted_title l, editorial_links l with
    | Some t, Some ls =>
        (Ok {| results := results l ++ [{| title := t; links := ls |}];
               formatted_title := formatted_title l;
               editorial_links := editorial_links l |}, st)
    | Some _, None => (Raise (UnboundLocalError "editorial_links"), st)
    | None, _ => (Raise (UnboundLocalError "formatted_title"), st)
    end.
Proof.
  unfold fields_present, loop_body. intros H.
  apply negb_false_iff in H. rewrite H.
  destruct (formatted_title l), (editorial_links l); reflexivity.
Qed.

(** An iteration for a row with both fields: the calls it makes, and what
    each of their results leads to. *)
Lemma loop_body_present E (r : row) (l : locals) (st : state) :
  fields_present r = true ->
  loop_body E r l st
  = match extract_file_id (VStr (py_str (google_docs_url r))) with
    | None => (Ok l, st)
    | Some fid =>
        match download_pdf E (VStr fid) (VStr (sanitize_filename (website_url r)))
                default_max_retries st with
        | (Ok (Some p), st1) =>
            match extract_editorial_links_from_pdf E p st1 with
            | (Ok ls, st2) =>
                (Ok (emit l (sanitize_filename (website_url r)) ls), removed p st2)
            | (Raise e, st2) => (Raise e, st2)
            end
        | (Ok None, st1) => (Ok l, st1)
        | (Raise e, st1) => (Raise e, st1)
        end
    end.
Proof.
  unfold fields_present, loop_body. intros H.
  apply negb_true_iff in H. rewrite H.
  destruct (extract_file_id _) as [fid|] eqn:Hid; [|reflexivity].
  rewrite (extract_file_id_truthy _ _ Hid). simpl default. unfold bind at 1.
  destruct (download_pdf _ _ _ _ st) as [[[p|]|e] st1] eqn:Hd; try reflexivity.
  apply download_pdf_success in Hd as (Hp & [b Hb] & _).
  assert (truthy (Some p) = true) as -> by (rewrite Hp; apply pdf_path_truthy).
  simpl default. unfold bind at 1.
  destruct (extract_editorial_links_from_pdf E p st1) as [[ls|e] st2] eqn:He;
    [|reflexivity].
  apply extract_editorial_links_inv in He as (b' & doc & _ & _ & _ & ->).
  unfold bind, os_remove, removed, tick. simpl. rewrite Hb.
  destruct ls as [|u ls]; [reflexivity|].
  unfold ret, emit. do 2 f_equal.
  rewrite append_per_link_spec, <- !app_assoc. reflexivity.
Qed.


Lemma for_rows_app E (a b : list row) :
  forall (l : locals) (st : state),
    for_rows E (a ++ b) l st = bind (for_rows E a l) (for_rows E b) st.
Proof.
  induction a as [|r a IH]; intros l st; [reflexivity|].
  simpl. unfold bind in *. destruct (loop_body E r l st) as [[l1|e] st1].
  - apply IH.
  - reflexivity.
Qed.

(** An iteration that returns has only appended to the results; for a
    row with both fields, nothing or the block of the row. *)
Lemma loop_body_block E (r : row) (l l' : locals) (st st' : state) :
  loop_body E r l st = (Ok l', st') ->
  exists block,
    results l' = results l ++ block
    /\ (fields_present r = true -> block = [] \/ row_block E r st block).
Proof.
  destruct (fields_present r) eqn:Hf.
  - rewrite (loop_body_present E r l st Hf).
    destruct (extract_file_id _) as [fid|] eqn:Hid.
    2:{ intros H. injection H as <- <-. exists []. rewrite app_nil_r. auto. }
    destruct (download_pdf _ _ _ _ st) as [[[p|]|e] st1] eqn:Hd; try discriminate.
    2:{ intros H. injection H as <- <-. exists []. rewrite app_nil_r. auto. }
    destruct (extract_editorial_links_from_pdf E p st1) as [[ls|e] st2] eqn:He;
      [|discriminate].
    intros H. injection H as <- <-.
    apply extract_editorial_links_inv in He as (b & doc & Hb & Hdoc & Hls & _).
    destruct ls as [|u ls].
    { exists []. rewrite app_nil_r. auto. }
    eexists. split; [reflexivity|]. intros _. right.
    exists fid, p, st1, b, doc, (u :: ls). repeat split; try assumption; try discriminate.
    rewrite Hls. apply confirmed_sublist.
  - rewrite (loop_body_missing E r l st Hf).
    destruct (formatted_title l), (editorial_links l); try discriminate.
    intros H. injection H as <- <-. eexists. split; [reflexivity|]. discriminate.
Qed.

Lemma for_rows_grows E (rs : list row) :
  forall (l l' : locals) (st st' : state),
    for_rows E rs l st = (Ok l', st') ->
    exists tail, results l' = results l ++ tail.
Proof.
  induction rs as [|r rs IH]; intros l l' st st'; simpl.
  - intros H. injection H as <- <-. exists []. by rewrite app_nil_r.
  - unfold bind. destruct (loop_body E r l st) as [[l1|e] st1] eqn:Hr; [|discriminate].
    intros H. apply IH in H as [tail ->].
    apply loop_body_block in Hr as (block & -> & _).
    exists (block ++ tail). by rewrite app_assoc.
Qed.



Lemma process_with_columns E (df : dataframe) (st : state) :
  has_column (lit "Google Docs URL") (columns df) = true ->
  has_column (lit "Website URL") (columns df) = true ->
  process_google_docs_from_excel E df st
  = match for_rows E (rows df) no_locals st with
    | (Ok l, st') => (Ok (Some (results l)), st')
    | (Raise e, st') => (Raise e, st')
    end.
Proof.
  intros H1 H2. unfold process_google_docs_from_excel. rewrite H1, H2. reflexivity.
Qed.

Lemma process_some_columns E (df : dataframe) (st st' : state) (rs : list record) :
  process_google_docs_from_excel E df st = (Ok (Some rs), st') ->
  has_column (lit "Google Docs URL") (columns df) = true
  /\ has_column (lit "Website URL") (columns df) = true.
Proof.
  unfold process_google_docs_from_excel.
  destruct (has_column (lit "Google Docs URL") _), (has_column (lit "Website URL") _);
    try discriminate. auto.
Qed.

(** C1, at a qualifying row: the sample sheet has one row, its document
    is fetched and has two confirmed links; the run returns four records
    for it, not one. *)
Theorem sample_row_record_repeated :
  outcome_of (process_google_docs_from_excel sample_env (sheet [sample_row]) start)
  = Ok (Some [sample_record; sample_record; sample_record; sample_record]).
Proof. vm_compute. reflexivity. Qed.

(** C2, at rows with a missing field: after a qualifying row, a row
    without its document reference appends one more copy of the last
    record; as the first row of the sheet it ends the run with an
    [UnboundLocalError]. *)
Theorem missing_row_not_skipped :
  outcome_of (process_google_docs_from_excel sample_env
                (sheet [sample_row; missing_row]) start)
  = Ok (Some [sample_record; sample_record; sample_record; sample_record;
              sample_record])
  /\ outcome_of (process_google_docs_from_excel sample_env (sheet [missing_row]) start)
     = Raise (UnboundLocalError "formatted_title").
Proof. split; vm_compute; reflexivity. Qed.



(** The run also ends when the file of a row cannot be opened: the
    sanitized label of 84 three-byte characters, with [.pdf], is a name
    of 256 bytes, and the [OSError] of [open] is not caught. *)
Lemma long_label_aborts_run :
  utf8_length (pdf_path (VStr (sanitize_filename (website_url long_row)))) = 256%nat
  /\ outcome_of (process_google_docs_from_excel sample_env (sheet [long_row]) start)
     = Raise (OSError (long_label ++ lit ".pdf")).
Proof. split; vm_compute; reflexivity. Qed.

(** The run also ends when a request raises an exception that is no
    [RequestException]: the URL found in the page text has a host that
    urllib3 refuses; the link before it has been checked, and the file
    of the row stays on the disk. *)
Lemma refused_url_aborts_run :
  outcome_of (process_google_docs_from_excel dotted_env (sheet [sample_row]) start)
  = Raise (OtherRequestError dotted_url)
  /\ clock (snd (process_google_docs_from_excel dotted_env (sheet [sample_row]) start))
     = 3%nat
  /\ is_Some (files_after (process_google_docs_from_excel dotted_env
                             (sheet [sample_row]) start) !! sample_pdf).
Proof. repeat split; vm_compute; eauto. Qed.

(** C4 (as the code has it): for a row whose document is fetched, when
    link extraction returns, with confirmed links or with none, the
    iteration returns and the local file is gone; when link extraction
    raises, the iteration raises the same exception and the local file is
    still there. *)
Theorem pdf_removed_when_extraction_returns E (r : row) (l : locals)
    (st st1 : state) (fid p : str) :
  fields_present r = true ->
  extract_file_id (VStr (py_str (google_docs_url r))) = Some fid ->
  download_pdf E (VStr fid) (VStr (sanitize_filename (website_url r)))
    default_max_retries st = (Ok (Some p), st1) ->
  match extract_editorial_links_from_pdf E p st1 with
  | (Ok _, _) =>
      exists l' st', loop_body E r l st = (Ok l', st') /\ files st' !! p = None
  | (Raise e, _) =>
      exists st', loop_body E r l st = (Raise e, st') /\ is_Some (files st' !! p)
  end.
Proof.
  intros Hf Hid Hd. rewrite (loop_body_present E r l st Hf), Hid, Hd.
  apply download_pdf_success in Hd as (_ & Hfile & _).
  destruct (extract_editorial_links_from_pdf E p st1) as [[ls|e] st2] eqn:He.
  - eexists _, _. split; [reflexivity|]. apply lookup_delete_eq.
  - eexists. split; [reflexivity|].
    pose proof (extract_editorial_links_files E p st1) as Hsame.
    rewrite He in Hsame. simpl in Hsame. by rewrite Hsame.
Qed.

(** C4, counterexample: the document served for the sample row does not
    open; extraction raises and the file of the row stays on the disk. *)
Lemma unopened_document_left_behind :
  outcome_of (loop_body broken_env sample_row no_locals start)
  = Raise (FileDataError sample_pdf)
  /\ files_after (loop_body broken_env sample_row no_locals start) !! sample_pdf
     = Some [x00]
  /\ files_after (process_google_docs_from_excel broken_env (sheet [sample_row]) start)
     !! sample_pdf = Some [x00].
Proof. repeat split; vm_compute; reflexivity. Qed.

(** What an iteration that returns has appended. *)
Lemma loop_body_block_of E (r : row) (l l' : locals) (st st' : state) :
  loop_body E r l st = (Ok l', st') ->
  results l' = results l ++ block_of E r l st.
Proof.
  unfold block_of. destruct (fields_present r) eqn:Hf.
  - rewrite (loop_body_present E r l st Hf).
    destruct (extract_file_id _) as [fid|];
      [|intros [= <- <-]; by rewrite app_nil_r].
    destruct (download_pdf _ _ _ _ st) as [[[p|]|e] st1]; try discriminate;
      [|intros [= <- <-]; by rewrite app_nil_r].
    destruct (extract_editorial_links_from_pdf E p st1) as [[ls|e] st2] eqn:He;
      [|discriminate].
    intros [= <- <-].
    apply extract_editorial_links_inv in He as (b & doc & -> & -> & <- & _).
    destruct ls as [|u ls]; simpl; [by rewrite app_nil_r | reflexivity].
  - rewrite (loop_body_missing E r l st Hf).
    destruct (formatted_title l), (editorial_links l); try discriminate.
    by intros [= <- <-].
Qed.

(** The records of a run of the loop, row by row. *)
Lemma for_rows_blocks E (rs : list row) :
  forall (l l' : locals) (st st' : state),
    for_rows E rs l st = (Ok l', st') ->
    exists blocks : list (list record),
      results l' = results l ++ concat blocks
      /\ length blocks = length rs
      /\ forall i r, rs !! i = Some r ->
           exists l_i st_i,
             for_rows E (take i rs) l st = (Ok l_i, st_i)
             /\ results l_i = results l ++ concat (take i blocks)
             /\ blocks !! i = Some (block_of E r l_i st_i).
Proof.
  induction rs as [|r rs IH]; intros l l' st st'; simpl.
  - intros [= <- <-]. exists []. simpl. rewrite app_nil_r. repeat split.
    by intros i r.
  - unfold bind. destruct (loop_body E r l st) as [[l1|e] st1] eqn:Hbody; [|discriminate].
    intros Hrest. apply IH in Hrest as (blocks & Hres & Hlen & Hrows).
    pose proof (loop_body_block_of E r l l1 st st1 Hbody) as Hblock.
    exists (block_of E r l st :: blocks). simpl.
    split; [by rewrite Hres, Hblock, <- app_assoc|].
    split; [by rewrite Hlen|].
    intros [|i] r' Hi; simpl in Hi.
    + injection Hi as <-. exists l, st. simpl. by rewrite app_nil_r.
    + destruct (Hrows i r' Hi) as (l_i & st_i & Hrun & Hresults & Hith).
      exists l_i, st_i. simpl. unfold bind. rewrite Hbody.
      split; [exact Hrun|]. split; [|exact Hith].
      by rewrite Hresults, Hblock, <- app_assoc.
Qed.

(** C9: the records of a returned run are the blocks of its rows one
    after the other in row order, one block for each row: a row is
    reached by the loop after the rows before it, with the records of
    their blocks as results, and its block is [block_of] there, that is,
    for a row whose document has confirmed links, copies of its record,
    whose links are the candidates confirmed, in the order of
    [candidates]: page after page, on each page the embedded links before
    the plain-text ones, each group as found. *)
Theorem records_follow_rows E (df : dataframe) (st st' : state) (rs : list record) :
  process_google_docs_from_excel E df st = (Ok (Some rs), st') ->
  exists blocks : list (list record),
    rs = concat blocks
    /\ length blocks = length (rows df)
    /\ forall i r, rows df !! i = Some r ->
         exists l_i st_i,
           for_rows E (take i (rows df)) no_locals st = (Ok l_i, st_i)
           /\ results l_i = concat (take i blocks)
           /\ blocks !! i = Some (block_of E r l_i st_i).
Proof.
  intros Hrun.
  destruct (process_some_columns E df st st' rs Hrun) as [H1 H2].
  rewrite process_with_columns in Hrun by assumption.
  destruct (for_rows E (rows df) no_locals st) as [[l|e] st1] eqn:Hfor; [|discriminate].
  injection Hrun as <- <-.
  apply for_rows_blocks in Hfor as (blocks & Hres & Hlen & Hrows).
  exists blocks. repeat split; assumption.
Qed.

(** * The theorems at sample inputs *)

Ltac by_evaluation :=
  apply injective_projections; [vm_compute; reflexivity | reflexivity].

Lemma download_pdf_retry_policy_witness :
  (exists st',
      download_pdf (retry_env [RequestException; status_response 404])
        (VStr (lit "ABC123")) (VStr (lit "a")) 3 start = (Ok None, st')
      /\ clock st' = 2%nat)
  /\ (exists st',
         download_pdf (retry_env []) (VStr (lit "ABC123")) (VStr (lit "a")) 3 start
         = (Ok None, st')
         /\ clock st' = 3%nat).
Proof.
  split.
  - destruct (download_pdf_retry_policy
                (retry_env [RequestException; status_response 404])
                (VStr (lit "ABC123")) (VStr (lit "a")) 3 start) as (H & _ & _).
    apply (H 1%nat {| status_code := 404; text := []; chunks := [];
                      stream_breaks := false |}).
    + simpl. lia.
    + intros [|j] Hj; [reflexivity | lia].
    + reflexivity.
    + discriminate.
  - destruct (download_pdf_retry_policy (retry_env [])
                (VStr (lit "ABC123")) (VStr (lit "a")) 3 start) as (_ & H & _).
    apply H. intros [|[|[|j]]] _; reflexivity.
Defined.

Lemma download_pdf_sanitizes_name_witness :
  sample_pdf = sanitize_filename (VStr (lit "https://site.example/page")) ++ lit ".pdf"
  /\ is_Some (files_after (download_pdf sample_env (VStr (lit "ABC123"))
                             (VStr (lit "https://site.example/page")) 3 start)
              !! sample_pdf).
Proof.
  destruct (download_pdf_sanitizes_name sample_env (VStr (lit "ABC123"))
              (VStr (lit "https://site.example/page")) 3 start
              (snd (download_pdf sample_env (VStr (lit "ABC123"))
                      (VStr (lit "https://site.example/page")) 3 start))
              sample_pdf) as (H1 & H2 & _).
  - by_evaluation.
  - split; [exact H1 | exact H2].
Defined.

Lemma extracted_links_origin_witness :
  exists b doc,
    files fetched !! sample_pdf = Some b /\ fitz_parse sample_env b = Some doc
    /\ forall u, u ∈ [photo_url; rf_url] ->
         (exists p, p ∈ doc /\ u ∈ clickable p)
         \/ (contains allowed_host u = true
             /\ exists p, p ∈ doc /\ u ∈ findall (get_text p)).
Proof.
  apply (extracted_links_origin sample_env sample_pdf fetched
           (snd (extract_editorial_links_from_pdf sample_env sample_pdf fetched))).
  by_evaluation.
Defined.


Lemma pdf_removed_when_extraction_returns_witness :
  exists l' st',
    loop_body sample_env sample_row no_locals start = (Ok l', st')
    /\ files st' !! sample_pdf = None.
Proof.
  exact (pdf_removed_when_extraction_returns sample_env sample_row no_locals
           start fetched (lit "ABC123") sample_pdf
           eq_refl eq_refl eq_refl).
Defined.

Lemma records_follow_rows_witness :
  exists blocks : list (list record),
    [sample_record; sample_record; sample_record; sample_record;
     second_record; second_record; second_record] = concat blocks
    /\ length blocks = length three_rows
    /\ forall i r, three_rows !! i = Some r ->
         exists l_i st_i,
           for_rows two_docs_env (take i three_rows) no_locals start = (Ok l_i, st_i)
           /\ results l_i = concat (take i blocks)
           /\ blocks !! i = Some (block_of two_docs_env r l_i st_i).
Proof.
  apply (records_follow_rows two_docs_env (sheet three_rows) start
           (snd (process_google_docs_from_excel two_docs_env (sheet three_rows) start))).
  by_evaluation.
Defined.

(** * Further properties *)

(** ** extract_file_id *)

Lemma strip_prefix_app (p s : str) : strip_prefix p (p ++ s) = Some s.
Proof.
  induction p as [|a p IH]; [by destruct s|].
  simpl. by rewrite N.eqb_refl.
Qed.

Lemma take_while_split (f : char -> bool) (s : str) :
  exists rest,
    s = take_while f s ++ rest
    /\ Forall (fun c => f c = true) (take_while f s)
    /\ match rest with [] => True | c :: _ => f c = false end.
Proof.
  induction s as [|c s (rest & Hs & Hall & Hrest)]; simpl.
  - by exists [].
  - destruct (f c) eqn:Hc.
    + exists rest. simpl. split; [by f_equal|]. split; [by constructor | assumption].
    + by exists (c :: s).
Qed.

Lemma take_while_app (f : char -> bool) (w rest : str) :
  Forall (fun c => f c = true) w ->
  match rest with [] => True | c :: _ => f c = false end ->
  take_while f (w ++ rest) = w.
Proof.
  induction 1 as [|c w Hc _ IH]; intros Hrest; simpl.
  - destruct rest as [|c rest]; simpl; [reflexivity | by rewrite Hrest].
  - rewrite Hc. f_equal. by apply IH.
Qed.

Lemma search_file_id_no_prefix (s : str) :
  contains doc_prefix s = false -> search_file_id s = None.
Proof.
  induction s as [|c s IH]; [reflexivity|].
  cbn [contains search_file_id]. intros H.
  apply orb_false_iff in H as [Hstart Hrest].
  unfold starts_with in Hstart.
  destruct (strip_prefix doc_prefix (c :: s)); [discriminate | by apply IH].
Qed.

Lemma search_file_id_sound (s id : str) :
  search_file_id s = Some id ->
  exists pre rest,
    s = pre ++ doc_prefix ++ id ++ rest
    /\ id <> [] /\ Forall (fun c => id_char c = true) id /\ ends_id rest.
Proof.
  induction s as [|c s IH]; [discriminate|]. cbn [search_file_id].
  assert (search_file_id s = Some id ->
          exists pre rest, c :: s = pre ++ doc_prefix ++ id ++ rest
            /\ id <> [] /\ Forall (fun c => id_char c = true) id /\ ends_id rest) as Hlater.
  { intros H. destruct (IH H) as (pre & rest & -> & Hrest). by exists (c :: pre), rest. }
  destruct (strip_prefix doc_prefix (c :: s)) as [after|] eqn:Hp; [|exact Hlater].
  destruct (take_while id_char after) as [|a w] eqn:Hw; [exact Hlater|].
  intros H. injection H as <-.
  apply strip_prefix_Some in Hp.
  destruct (take_while_split id_char after) as (rest & Hafter & Hall & Hrest).
  rewrite Hw in Hafter, Hall.
  exists [], rest. rewrite Hp, Hafter. repeat split; try assumption. discriminate.
Qed.

Lemma search_file_id_at_head (id rest : str) :
  id <> [] -> Forall (fun c => id_char c = true) id -> ends_id rest ->
  search_file_id (doc_prefix ++ id ++ rest) = Some id.
Proof.
  intros Hne Hall Hrest.
  destruct (doc_prefix ++ id ++ rest) as [|c s] eqn:Hs.
  { apply app_eq_nil in Hs as [Hs _]. vm_compute in Hs. discriminate. }
  cbn [search_file_id]. rewrite <- Hs, strip_prefix_app.
  rewrite (take_while_app id_char id rest Hall Hrest).
  destruct id; [contradiction | reflexivity].
Qed.

(** X1: [extract_file_id] finds no identifier in a value that is not a
    string, in a missing value, and in a string that does not contain
    the document prefix. *)
Theorem extract_file_id_needs_prefix (v : value) :
  isinstance_str v = false \/ isna v = true
  \/ contains doc_prefix (py_str v) = false ->
  extract_file_id v = None.
Proof.
  unfold extract_file_id. intros [H|[H|H]].
  - by rewrite H.
  - rewrite H. by rewrite orb_true_r.
  - destruct (negb _ || _); [reflexivity | by apply search_file_id_no_prefix].
Qed.

(** X2: an identifier that [extract_file_id] returns comes from a string
    in which it follows the document prefix; it is not empty, it is made
    of the characters of the identifier class, and it is the whole run of
    them: what follows it in the string is no such character. *)
Theorem extract_file_id_sound (v : value) (id : str) :
  extract_file_id v = Some id ->
  exists pre rest,
    v = VStr (pre ++ doc_prefix ++ id ++ rest)
    /\ id <> [] /\ Forall (fun c => id_char c = true) id /\ ends_id rest.
Proof.
  unfold extract_file_id. destruct v as [s|r|r]; simpl; try discriminate.
  intros H. apply search_file_id_sound in H as (pre & rest & -> & H).
  by exists pre, rest.
Qed.

(** X3: a reference that starts with the document prefix followed by an
    identifier gives that identifier back, whatever follows it after a
    character that ends it; in particular the export URL that
    [download_pdf] builds for an identifier gives the identifier back. *)
Theorem extract_file_id_of_reference (id rest : str) :
  id <> [] -> Forall (fun c => id_char c = true) id -> ends_id rest ->
  extract_file_id (VStr (doc_prefix ++ id ++ rest)) = Some id
  /\ extract_file_id (VStr (pdf_export_url (VStr id))) = Some id.
Proof.
  intros Hne Hall Hrest. unfold extract_file_id, pdf_export_url. simpl negb. simpl py_str.
  cbn [orb]. split.
  - by apply search_file_id_at_head.
  - by apply (search_file_id_at_head id (lit "/export?format=pdf")).
Qed.

(** ** sanitize_filename *)

Lemma contains_clean (old s : str) (c : char) :
  In c old -> invalid_char c = true -> Forall clean s -> contains old s = false.
Proof.
  intros Hin Hc. induction s as [|a s IH]; intros Hs; cbn [contains].
  - by rewrite (starts_with_clean old [] c).
  - rewrite (starts_with_clean old (a :: s) c) by assumption.
    apply IH. by inversion Hs.
Qed.

(** X4: whatever the label, the name that [sanitize_filename] returns has
    at most 200 characters, none of the characters that the substitution
    replaces, and no URL scheme anywhere in it. *)
Theorem sanitize_filename_safe (v : value) :
  (length (sanitize_filename v) <= 200)%nat
  /\ Forall (fun c => invalid_char c = false) (sanitize_filename v)
  /\ contains (lit "http://") (sanitize_filename v) = false
  /\ contains (lit "https://") (sanitize_filename v) = false.
Proof.
  pose proof (sanitize_filename_clean v) as Hc.
  split; [apply sanitize_filename_length|]. split; [exact Hc|].
  split; apply (contains_clean _ _ 58%N); try assumption; try reflexivity;
    simpl; tauto.
Qed.

(** X5: a name of at most 200 characters that has none of the replaced
    characters and no white space at either end is returned as it is. *)
Theorem sanitize_filename_keeps_safe_name (s : str) :
  Forall (fun c => invalid_char c = false) s ->
  (length s <= 200)%nat ->
  stripped s ->
  sanitize_filename (VStr s) = s.
Proof.
  intros Hc Hlen Hs. rewrite sanitize_filename_of_clean by assumption. exact Hs.
Qed.

(** ** download_pdf *)


(** After attempts that end in a [RequestException], a complete 200
    response ends the loop with the file written, if the file opens. *)
Lemma download_loop_fetches E url fn max_retries (k : nat) :
  forall (fuel : nat) (rc : Z) (st : state) (r : response),
    (k < Z.to_nat (max_retries - rc))%nat ->
    (Z.to_nat (max_retries - rc) <= fuel)%nat ->
    (forall j, (j < k)%nat -> attempt_raises E fn (net E (clock st + j) url) = true) ->
    net E (clock st + k) url = Responded r ->
    status_code r = 200 ->
    stream_breaks r = false ->
    can_open E fn = true ->
    exists st', download_loop E url fn max_retries fuel rc st = (Ok (Some fn), st')
                /\ clock st' = (clock st + k + 1)%nat
                /\ files st' !! fn = Some (concat (chunks r)).
Proof.
  induction k as [|k IH];
    intros fuel rc st r Hk Hfuel Hraise Hnet Hstatus Hbreak Hopen;
    (destruct fuel as [|fuel]; [lia|]).
  - simpl. destruct (Z.ltb_spec rc max_retries) as [Hlt|Hge]; [|lia]. run_step.
    rewrite Nat.add_0_r in Hnet. rewrite Hnet, Hstatus, Hopen, Hbreak. simpl.
    eexists; split; [reflexivity|]. simpl. split; [lia | by rewrite lookup_insert_eq].
  - pose proof (Hraise O ltac:(lia)) as H0. rewrite Nat.add_0_r in H0.
    rewrite download_loop_retry by (assumption || lia).
    destruct (IH fuel (rc + 1) (after_attempt fn (net E (clock st) url) st) r)
      as (st' & -> & Hclock & Hfile); try lia; try assumption.
    { intros j Hj. rewrite after_attempt_clock.
      replace (S (clock st) + j)%nat with (clock st + S j)%nat by lia.
      apply Hraise. lia. }
    { rewrite after_attempt_clock.
      replace (S (clock st) + k)%nat with (clock st + S k)%nat by lia. exact Hnet. }
    eexists; split; [reflexivity|]. rewrite after_attempt_clock in Hclock.
    split; [lia | assumption].
Qed.

(** Requests that all raise leave the file system as it is. *)
Lemma download_loop_only_exceptions E url fn max_retries (n : nat) :
  forall (fuel : nat) (rc : Z) (st : state),
    n = Z.to_nat (max_retries - rc) ->
    (n <= fuel)%nat ->
    (forall j, (j < n)%nat -> net E (clock st + j) url = RequestException) ->
    download_loop E url fn max_retries fuel rc st
    = (Ok None, {| clock := clock st + n; files := files st |}).
Proof.
  induction n as [|n IH]; intros fuel rc st Hn Hfuel Hraise.
  - replace {| clock := clock st + 0; files := files st |} with st
      by (destruct st; simpl; f_equal; lia).
    destruct fuel; simpl; destruct (Z.ltb_spec rc max_retries); try reflexivity; lia.
  - destruct fuel as [|fuel]; [lia|]. simpl.
    destruct (Z.ltb_spec rc max_retries) as [Hlt|Hge]; [|lia]. run_step.
    pose proof (Hraise O ltac:(lia)) as H0. rewrite Nat.add_0_r in H0. rewrite H0.
    rewrite (IH fuel (rc + 1) {| clock := S (clock st); files := files st |}); try lia.
    + simpl. do 2 f_equal. lia.
    + intros j Hj. simpl. replace (S (clock st + j)) with (clock st + S j)%nat by lia.
      apply Hraise. lia.
Qed.


(** X7: when the attempts before it end in a transport exception, a
    request within the bound is answered 200 with a complete body and
    the file can be opened, [download_pdf] returns the path of its file,
    the file holds that body, and no request follows. *)
Theorem download_pdf_fetches E (file_id file_name : value) (max_retries : Z)
    (st : state) (k : nat) (r : response) :
  (k < Z.to_nat max_retries)%nat ->
  (forall j, (j < k)%nat ->
     attempt_raises E (pdf_path file_name)
       (net E (clock st + j) (pdf_export_url file_id)) = true) ->
  net E (clock st + k) (pdf_export_url file_id) = Responded r ->
  status_code r = 200 ->
  stream_breaks r = false ->
  can_open E (pdf_path file_name) = true ->
  exists st',
    download_pdf E file_id file_name max_retries st
    = (Ok (Some (pdf_path file_name)), st')
    /\ clock st' = (clock st + k + 1)%nat
    /\ files st' !! pdf_path file_name = Some (concat (chunks r)).
Proof.
  intros Hk Hraise Hnet Hstatus Hbreak Hopen. unfold download_pdf, pdf_path in *.
  apply (download_loop_fetches E _ _ max_retries k _ 0 st r); try assumption.
  - by rewrite Z.sub_0_r.
  - rewrite Z.sub_0_r. lia.
Qed.

(** X8: a download that fails can leave a file behind: when the body of
    the first 200 response, written to the file of the row, breaks off
    and every later request raises, [download_pdf] returns the failure
    result and the part of the body that arrived stays in the file. *)
Theorem download_pdf_leaves_partial_file E (file_id file_name : value)
    (max_retries : Z) (st : state) (r : response) :
  0 < max_retries ->
  net E (clock st) (pdf_export_url file_id) = Responded r ->
  status_code r = 200 ->
  can_open E (pdf_path file_name) = true ->
  stream_breaks r = true ->
  (forall j, (0 < j < Z.to_nat max_retries)%nat ->
     net E (clock st + j) (pdf_export_url file_id) = RequestException) ->
  exists st',
    download_pdf E file_id file_name max_retries st = (Ok None, st')
    /\ files st' !! (sanitize_filename file_name ++ lit ".pdf")
       = Some (concat (chunks r)).
Proof.
  intros Hmax Hnet Hstatus Hopen Hbreak Hlater. unfold download_pdf, pdf_path in *.
  destruct (Z.to_nat max_retries) as [|n] eqn:Hn; [lia|]. simpl.
  destruct (Z.ltb_spec 0 max_retries) as [_|]; [|lia]. run_step.
  rewrite Hnet, Hstatus, Hopen, Hbreak. simpl.
  rewrite (download_loop_only_exceptions E _ _ max_retries n); try lia.
  - eexists. split; [reflexivity|]. simpl. by rewrite lookup_insert_eq.
  - intros j Hj. simpl. replace (S (clock st + j)) with (clock st + S j)%nat by lia.
    apply Hlater. lia.
Qed.

(** ** check_editorial_use *)


(** ** extract_editorial_links_from_pdf *)


Lemma confirmed_all E (cands : list str) :
  forall t,
    (forall i u, cands !! i = Some u ->
                 is_editorial <$> verdict_of E (net E (t + i) u) = Some true) ->
    confirmed E t cands = cands /\ no_crash E t cands.
Proof.
  induction cands as [|u cands IH]; intros t H; [split; [reflexivity | by intros i u]|].
  simpl. pose proof (H O u eq_refl) as H0. rewrite Nat.add_0_r in H0.
  destruct (IH (S t)) as [Heq Hno].
  { intros i v Hi. replace (S t + i)%nat with (t + S i)%nat by lia. by apply H. }
  split.
  - destruct (verdict_of E (net E t u)) as [v|]; [|discriminate].
    injection H0 as ->. simpl. by f_equal.
  - intros [|i] w Hi.
    + injection Hi as <-. rewrite Nat.add_0_r. intros Hcrash.
      rewrite Hcrash in H0. discriminate.
    + replace (t + S i)%nat with (S t + i)%nat by lia. by apply Hno.
Qed.

Lemma confirmed_none E (cands : list str) :
  forall t,
    (forall i u, cands !! i = Some u ->
                 is_editorial <$> verdict_of E (net E (t + i) u) = Some false) ->
    confirmed E t cands = [] /\ no_crash E t cands.
Proof.
  induction cands as [|u cands IH]; intros t H; [split; [reflexivity | by intros i u]|].
  simpl. pose proof (H O u eq_refl) as H0. rewrite Nat.add_0_r in H0.
  destruct (IH (S t)) as [Heq Hno].
  { intros i v Hi. replace (S t + i)%nat with (t + S i)%nat by lia. by apply H. }
  split.
  - destruct (verdict_of E (net E t u)) as [v|]; [|discriminate].
    injection H0 as ->. simpl. exact Heq.
  - intros [|i] w Hi.
    + injection Hi as <-. rewrite Nat.add_0_r. intros Hcrash.
      rewrite Hcrash in H0. discriminate.
    + replace (t + S i)%nat with (S t + i)%nat by lia. by apply Hno.
Qed.

(** X11: link extraction removes no duplicate: when the request made for
    each candidate of the document gets the confirming verdict, the
    returned sequence is the whole candidate sequence, a link as many
    times as the document has it; when each gets another verdict the
    sequence is empty. *)
Theorem extraction_keeps_every_confirmed E (path : str) (st : state) (b : bytes)
    (doc : list page) :
  files st !! path = Some b ->
  fitz_parse E b = Some doc ->
  ((forall i u, candidates doc !! i = Some u ->
                is_editorial <$> verdict_of E (net E (clock st + i) u) = Some true) ->
   fst (extract_editorial_links_from_pdf E path st) = Ok (candidates doc))
  /\ ((forall i u, candidates doc !! i = Some u ->
                   is_editorial <$> verdict_of E (net E (clock st + i) u) = Some false) ->
      fst (extract_editorial_links_from_pdf E path st) = Ok []).
Proof.
  intros Hfile Hparse. split; intros H.
  - destruct (confirmed_all E (candidates doc) (clock st) H) as [Heq Hno].
    rewrite (extract_editorial_links_spec E path st b doc Hfile Hparse Hno).
    simpl. by rewrite Heq.
  - destruct (confirmed_none E (candidates doc) (clock st) H) as [Heq Hno].
    rewrite (extract_editorial_links_spec E path st b doc Hfile Hparse Hno).
    simpl. by rewrite Heq.
Qed.

(** ** The URL pattern *)

Lemma url_with_scheme_shape (scheme s u : str) :
  url_with_scheme scheme s = Some u ->
  exists body, u = scheme ++ body /\ body <> []
               /\ Forall (fun c => is_space c = false) body.
Proof.
  unfold url_with_scheme. destruct (strip_prefix scheme s) as [rest|]; [|discriminate].
  destruct (take_while_split non_space rest) as (_ & _ & Hall & _).
  destruct (take_while non_space rest) as [|c body]; [discriminate|].
  intros [= <-]. exists (c :: body). repeat split; [discriminate|].
  eapply Forall_impl; [exact Hall|]. intros a Ha. by apply negb_true_iff.
Qed.

Lemma url_at_shape (s u : str) :
  url_at s = Some u ->
  exists scheme body,
    (scheme = lit "https://" \/ scheme = lit "http://")
    /\ u = scheme ++ body /\ body <> []
    /\ Forall (fun c => is_space c = false) body.
Proof.
  unfold url_at.
  destruct (url_with_scheme (lit "https://") s) as [u'|] eqn:H1.
  - intros [= <-]. apply url_with_scheme_shape in H1 as (body & H).
    exists (lit "https://"), body. auto.
  - intros H2. apply url_with_scheme_shape in H2 as (body & H).
    exists (lit "http://"), body. auto.
Qed.

Lemma findall_from_shape (s : str) :
  forall (skip : nat) (u : str),
    u ∈ findall_from skip s ->
    exists scheme body,
      (scheme = lit "https://" \/ scheme = lit "http://")
      /\ u = scheme ++ body /\ body <> []
      /\ Forall (fun c => is_space c = false) body.
Proof.
  induction s as [|c s IH]; intros skip u; cbn [findall_from].
  - intros H. by apply elem_of_nil in H.
  - destruct skip as [|k]; [|apply IH].
    destruct (url_at (c :: s)) as [m|] eqn:Hm; [|apply IH].
    intros H. apply elem_of_cons in H as [->|H]; [by apply url_at_shape in Hm|].
    by apply IH in H.
Qed.

(** X12: every match of the URL pattern in a page text is a scheme,
    [http://] or [https://], followed by at least one character, and has
    no white space in it. *)
Theorem findall_matches_are_urls (text u : str) :
  u ∈ findall text ->
  (exists scheme body,
      (scheme = lit "https://" \/ scheme = lit "http://")
      /\ u = scheme ++ body /\ body <> [])
  /\ Forall (fun c => is_space c = false) u.
Proof.
  intros H. apply findall_from_shape in H as (scheme & body & Hs & -> & Hne & Hall).
  split; [by exists scheme, body|].
  apply Forall_app. split; [|exact Hall].
  destruct Hs as [-> | ->]; vm_compute; repeat constructor.
Qed.

Lemma findall_from_skip (a x : str) :
  findall_from (length a) (a ++ x) = findall_from O x.
Proof. induction a as [|c a IH]; [reflexivity | exact IH]. Qed.

Lemma url_at_head (scheme body rest : str) :
  scheme = lit "https://" \/ scheme = lit "http://" ->
  body <> [] ->
  Forall (fun c => is_space c = false) body ->
  ends_url rest ->
  url_at (scheme ++ body ++ rest) = Some (scheme ++ body).
Proof.
  intros Hs Hne Hall Hrest.
  assert (take_while non_space (body ++ rest) = body) as Htake.
  { apply take_while_app.
    - eapply Forall_impl; [exact Hall|]. intros a Ha. by apply negb_true_iff.
    - destruct rest as [|c rest]; [exact I|]. simpl in Hrest.
      unfold non_space. by rewrite Hrest. }
  unfold url_at. destruct Hs as [-> | ->].
  - unfold url_with_scheme. rewrite strip_prefix_app, Htake. by destruct body.
  - assert (url_with_scheme (lit "https://") (lit "http://" ++ body ++ rest) = None) as ->.
    { unfold url_with_scheme.
      assert (strip_prefix (lit "https://") (lit "http://" ++ body ++ rest) = None) as ->
        by (vm_compute; reflexivity).
      reflexivity. }
    unfold url_with_scheme. rewrite strip_prefix_app, Htake. by destruct body.
Qed.

(** X13: a text that starts with a URL, ended by white space or by the
    end of the text, gives that URL as its first match, up to the white
    space, whatever punctuation it ends with; the other matches are
    those of the text after it. *)
Theorem findall_first_url (scheme body rest : str) :
  scheme = lit "https://" \/ scheme = lit "http://" ->
  body <> [] ->
  Forall (fun c => is_space c = false) body ->
  ends_url rest ->
  findall (scheme ++ body ++ rest) = (scheme ++ body) :: findall rest.
Proof.
  intros Hs Hne Hall Hrest.
  pose proof (url_at_head scheme body rest Hs Hne Hall Hrest) as Hat.
  unfold findall. rewrite app_assoc in *.
  destruct (scheme ++ body) as [|c u] eqn:Hu.
  { apply app_eq_nil in Hu as [_ Hb]. contradiction. }
  change ((c :: u) ++ rest) with (c :: (u ++ rest)) in *.
  cbn [findall_from]. rewrite Hat. f_equal.
  apply findall_from_skip.
Qed.

(** ** process_google_docs_from_excel *)

Lemma replace_char (a b : char) (s : str) :
  replace [a] [b] s = List.map (fun c => if (a =? c)%N then b else c) s.
Proof.
  unfold replace. induction s as [|c s IH]; [reflexivity|].
  cbn [replace_from List.map]. unfold starts_with. cbn [strip_prefix].
  destruct (a =? c)%N; simpl; by rewrite IH.
Qed.

Lemma title_without_underscore (s : str) :
  underscore ∉ replace (lit "_") (lit "/") s.
Proof.
  change (lit "_") with [95%N]. change (lit "/") with [47%N].
  rewrite replace_char. intros H.
  apply list_elem_of_In, in_map_iff in H as (c & Hc & _).
  unfold underscore in Hc.
  destruct (N.eqb_spec 95 c) as [Heq|Hne]; [discriminate | congruence].
Qed.

Lemma row_block_emitted E (r : row) (st : state) (block : list record) :
  row_block E r st block -> Forall emitted block.
Proof.
  intros (fid & p & st1 & b & doc & ls & _ & _ & _ & _ & _ & _ & Hne & ->).
  apply Forall_replicate. split; [exact Hne | apply title_without_underscore].
Qed.

Lemma for_rows_emitted E (rs : list row) :
  Forall (fun r => fields_present r = true) rs ->
  forall (l l' : locals) (st st' : state),
    for_rows E rs l st = (Ok l', st') ->
    Forall emitted (results l) -> Forall emitted (results l').
Proof.
  induction 1 as [|r rs Hr _ IH]; intros l l' st st'; simpl.
  - by intros [= <- <-].
  - unfold bind. destruct (loop_body E r l st) as [[l1|e] st1] eqn:Hbody; [|discriminate].
    intros Hrest Hl. apply (IH _ _ _ _ Hrest).
    apply loop_body_block in Hbody as (block & -> & Hshape).
    apply Forall_app. split; [exact Hl|].
    destruct (Hshape Hr) as [->|Hblock]; [constructor | by eapply row_block_emitted].
Qed.

Lemma last_replicate_end (res : list record) (n : nat) (rec : record) :
  last (res ++ replicate (S n) rec) = Some rec.
Proof. by rewrite replicate_S_end, app_assoc, last_snoc. Qed.

Lemma loop_body_inv E (r : row) (l l' : locals) (st st' : state) :
  loop_body E r l st = (Ok l', st') -> locals_inv l -> locals_inv l'.
Proof.
  destruct (fields_present r) eqn:Hf.
  - rewrite (loop_body_present E r l st Hf).
    destruct (extract_file_id _) as [fid|]; [|by intros [= <- <-]].
    destruct (download_pdf _ _ _ _ st) as [[[p|]|e] st1]; try discriminate;
      [|by intros [= <- <-]].
    destruct (extract_editorial_links_from_pdf E p st1) as [[ls|e] st2];
      [|discriminate].
    intros [= <- <-] Hl. unfold locals_inv, emit in *.
    destruct ls as [|u ls]; simpl.
    + destruct (formatted_title l) as [t|]; [|exact Hl].
      destruct Hl as [_ Hlast]. split; [by eexists | exact Hlast].
    + split; [by eexists|]. eexists.
      split; [exact (last_replicate_end (results l) (S (length (u :: ls))) _) | reflexivity].
  - rewrite (loop_body_missing E r l st Hf). unfold locals_inv.
    destruct (formatted_title l) as [t|] eqn:Ht; [|discriminate].
    destruct (editorial_links l) as [ls|] eqn:Hls; [|discriminate].
    intros [= <- <-] _. simpl. split; [by eexists|].
    eexists. split; [apply last_snoc | reflexivity].
Qed.

Lemma for_rows_inv E (rs : list row) :
  forall (l l' : locals) (st st' : state),
    for_rows E rs l st = (Ok l', st') -> locals_inv l -> locals_inv l'.
Proof.
  induction rs as [|r rs IH]; intros l l' st st'; simpl.
  - by intros [= <- <-].
  - unfold bind. destruct (loop_body E r l st) as [[l1|e] st1] eqn:Hbody; [|discriminate].
    intros Hrest Hl. apply (IH _ _ _ _ Hrest). by eapply loop_body_inv.
Qed.

(** X14: when every row of the sheet has both fields, every record of a
    returned run has at least one link, and its title has no underscore:
    the underscores of the sanitized label, those of the label itself
    included, have become slashes. *)
Theorem records_of_present_rows E (df : dataframe) (st st' : state)
    (rs : list record) :
  process_google_docs_from_excel E df st = (Ok (Some rs), st') ->
  Forall (fun r => fields_present r = true) (rows df) ->
  Forall (fun rec => links rec <> [] /\ underscore ∉ title rec) rs.
Proof.
  intros Hrun Hrows.
  destruct (process_some_columns E df st st' rs Hrun) as [H1 H2].
  rewrite process_with_columns in Hrun by assumption.
  destruct (for_rows E (rows df) no_locals st) as [[l|e] st1] eqn:Hfor; [|discriminate].
  injection Hrun as <- <-.
  apply (for_rows_emitted E (rows df) Hrows _ _ _ _ Hfor). constructor.
Qed.

(** X15: what a row with a missing field does when the loop reaches it
    after the rows [pre]: if no record has been appended so far, the
    iteration raises [UnboundLocalError] for [formatted_title]; otherwise
    it appends exactly one record, which has the title of the record
    before it, and changes nothing else. *)
Theorem missing_row_after E (pre : list row) (r : row) (l : locals)
    (st st1 : state) :
  for_rows E pre no_locals st = (Ok l, st1) ->
  fields_present r = false ->
  (results l = [] ->
   loop_body E r l st1 = (Raise (UnboundLocalError "formatted_title"), st1))
  /\ (results l <> [] ->
      exists prev rec,
        last (results l) = Some prev /\ title rec = title prev
        /\ loop_body E r l st1
           = (Ok {| results := results l ++ [rec];
                    formatted_title := formatted_title l;
                    editorial_links := editorial_links l |}, st1)).
Proof.
  intros Hpre Hf.
  assert (locals_inv l) as Hinv by (eapply for_rows_inv; [exact Hpre | reflexivity]).
  rewrite (loop_body_missing E r l st1 Hf). unfold locals_inv in Hinv.
  destruct (formatted_title l) as [t|].
  - destruct Hinv as ([ls Hls] & prev & Hlast & Htitle). rewrite Hls. split.
    + intros Hnil. rewrite Hnil in Hlast. discriminate.
    + intros _. exists prev, {| title := t; links := ls |}. auto.
  - split; [reflexivity | contradiction].
Qed.

(** X16: a row with both fields whose reference does not contain the
    document prefix is passed over: the iteration makes no request,
    changes no file, appends nothing and leaves the local variables as
    they are. *)
Theorem row_without_reference_skipped E (r : row) (l : locals) (st : state) :
  fields_present r = true ->
  contains doc_prefix (py_str (google_docs_url r)) = false ->
  loop_body E r l st = (Ok l, st).
Proof.
  intros Hf Hc. rewrite (loop_body_present E r l st Hf).
  unfold extract_file_id. simpl. by rewrite search_file_id_no_prefix.
Qed.

(** X17: a row with both fields whose document cannot be reached, every
    request for it raising, is passed over after exactly three requests:
    nothing is appended, no file is written, the local variables stay as
    they are. *)
Theorem row_with_unreachable_document_skipped E (r : row) (l : locals)
    (st : state) (fid : str) :
  fields_present r = true ->
  extract_file_id (VStr (py_str (google_docs_url r))) = Some fid ->
  (forall j, (j < 3)%nat ->
     net E (clock st + j) (pdf_export_url (VStr fid)) = RequestException) ->
  loop_body E r l st = (Ok l, {| clock := clock st + 3; files := files st |}).
Proof.
  intros Hf Hid Hnet. rewrite (loop_body_present E r l st Hf), Hid.
  unfold download_pdf.
  by rewrite (download_loop_only_exceptions E _ _ default_max_retries 3%nat).
Qed.

Lemma starts_with_absent (old s : str) (c : char) :
  In c old -> c ∉ s -> starts_with old s = false.
Proof.
  intros Hin Hs. unfold starts_with.
  destruct (strip_prefix old s) as [rest|] eqn:Hp; [|reflexivity].
  apply strip_prefix_Some in Hp. subst s. exfalso. apply Hs.
  apply elem_of_app. left. by apply list_elem_of_In.
Qed.

Lemma replace_absent (old new s : str) (c : char) :
  In c old -> c ∉ s -> replace old new s = s.
Proof.
  intros Hin. unfold replace. induction s as [|a s IH]; intros Hs; [reflexivity|].
  cbn [replace_from]. rewrite (starts_with_absent old (a :: s) c Hin Hs).
  f_equal. apply IH. intros H. apply Hs. by right.
Qed.

Lemma replace_from_skip (old new a x : str) :
  replace_from old new (length a) (a ++ x) = replace_from old new O x.
Proof. induction a as [|c a IH]; [reflexivity | exact IH]. Qed.

Lemma replace_at_head (old x : str) (c : char) :
  old <> [] -> In c old -> c ∉ x -> replace old [] (old ++ x) = x.
Proof.
  intros Hne Hin Hx. unfold replace.
  destruct old as [|a old]; [contradiction|].
  change ((a :: old) ++ x) with (a :: (old ++ x)). cbn [replace_from].
  unfold starts_with.
  change (a :: old ++ x) with ((a :: old) ++ x). rewrite strip_prefix_app.
  simpl app. cbn [length Nat.pred]. rewrite replace_from_skip.
  by apply (replace_absent (a :: old) [] x c).
Qed.

Lemma replace_miss (old new : str) (c : char) (s : str) :
  starts_with old (c :: s) = false ->
  replace_from old new O (c :: s) = c :: replace_from old new O s.
Proof. intros H. cbn [replace_from]. by rewrite H. Qed.

(** Removing both schemes from a label that starts with one of them
    and has no colon after it leaves what follows the scheme. *)
Lemma schemes_removed (scheme body : str) :
  scheme = lit "https://" \/ scheme = lit "http://" ->
  58%N ∉ body ->
  replace (lit "http://") [] (replace (lit "https://") [] (scheme ++ body)) = body.
Proof.
  intros [-> | ->] Hbody.
  - rewrite (replace_at_head (lit "https://") body 58%N);
      [|discriminate|simpl; tauto|assumption].
    apply (replace_absent _ _ _ 58%N); [simpl; tauto | assumption].
  - assert (replace (lit "https://") [] (lit "http://" ++ body) = lit "http://" ++ body)
      as ->.
    { unfold replace.
      change (lit "http://" ++ body)
        with (104 :: 116 :: 116 :: 112 :: 58 :: 47 :: 47 :: body)%N.
      do 7 (rewrite replace_miss by (vm_compute; reflexivity)).
      do 7 f_equal. apply (replace_absent _ _ _ 58%N); [simpl; tauto | assumption]. }
    apply (replace_at_head (lit "http://") body 58%N);
      [discriminate|simpl; tauto|assumption].
Qed.

Lemma title_of_sub_invalid (body : str) :
  Forall (fun c => plain_char c = true) body ->
  replace (lit "_") (lit "/") (sub_invalid body) = body.
Proof.
  change (lit "_") with [95%N]. change (lit "/") with [47%N].
  rewrite replace_char. unfold sub_invalid. rewrite List.map_map.
  induction 1 as [|c body Hc _ IH]; [reflexivity|].
  cbn [List.map]. rewrite IH. f_equal. unfold plain_char in Hc.
  destruct (N.eqb_spec c 47) as [->|Hslash]; [reflexivity|].
  cbn [orb] in Hc. apply andb_prop in Hc as [Hinv Hund].
  apply negb_true_iff in Hinv, Hund. rewrite Hinv.
  apply N.eqb_neq in Hund. destruct (N.eqb_spec 95 c); congruence.
Qed.

(** X18: the title of a record gives the label back without its scheme:
    for a label made of a scheme and at most 200 characters that are
    slashes or characters that are neither replaced nor underscores,
    with no white space at its end, replacing the underscores of the
    sanitized name by slashes yields what follows the scheme. *)
Theorem title_of_plain_label (scheme body : str) :
  scheme = lit "https://" \/ scheme = lit "http://" ->
  Forall (fun c => plain_char c = true) body ->
  (length body <= 200)%nat ->
  stripped (scheme ++ body) ->
  replace (lit "_") (lit "/") (sanitize_filename (VStr (scheme ++ body))) = body.
Proof.
  intros Hs Hplain Hlen Hstrip. unfold sanitize_filename. simpl.
  unfold stripped in Hstrip. rewrite Hstrip.
  rewrite (schemes_removed scheme body Hs).
  - rewrite take_ge by (unfold sub_invalid; rewrite length_map; lia).
    by apply title_of_sub_invalid.
  - intros Hin. rewrite Forall_forall in Hplain.
    specialize (Hplain _ Hin). vm_compute in Hplain. discriminate.
Qed.

(** * The further properties at sample inputs *)

Lemma extract_file_id_needs_prefix_witness :
  extract_file_id foreign_reference = None.
Proof.
  apply extract_file_id_needs_prefix. right. right. vm_compute. reflexivity.
Defined.

Lemma extract_file_id_sound_witness :
  exists pre rest,
    edit_reference = VStr (pre ++ doc_prefix ++ lit "ABC-1_2" ++ rest)
    /\ lit "ABC-1_2" <> []
    /\ Forall (fun c => id_char c = true) (lit "ABC-1_2")
    /\ ends_id rest.
Proof.
  apply (extract_file_id_sound edit_reference (lit "ABC-1_2")).
  vm_compute. reflexivity.
Defined.

Lemma extract_file_id_of_reference_witness :
  extract_file_id (VStr (doc_prefix ++ lit "ABC123" ++ lit "/edit")) = Some (lit "ABC123")
  /\ extract_file_id (VStr (pdf_export_url (VStr (lit "ABC123")))) = Some (lit "ABC123").
Proof.
  apply extract_file_id_of_reference.
  - discriminate.
  - vm_compute. repeat constructor.
  - reflexivity.
Defined.

Lemma sanitize_filename_keeps_safe_name_witness :
  sanitize_filename (VStr (lit "site.example page")) = lit "site.example page".
Proof.
  apply sanitize_filename_keeps_safe_name.
  - vm_compute. repeat constructor.
  - vm_compute. lia.
  - vm_compute. reflexivity.
Defined.

Lemma download_pdf_fetches_witness :
  exists st',
    download_pdf (retry_env [RequestException; pdf_response [x25; x50]])
      (VStr (lit "ABC123")) (VStr (lit "https://site.example/page")) 3 start
    = (Ok (Some (sanitize_filename (VStr (lit "https://site.example/page"))
                 ++ lit ".pdf")), st')
    /\ clock st' = 2%nat
    /\ files st' !! (sanitize_filename (VStr (lit "https://site.example/page"))
                     ++ lit ".pdf")
       = Some [x25; x50].
Proof.
  apply (download_pdf_fetches
           (retry_env [RequestException; pdf_response [x25; x50]])
           (VStr (lit "ABC123")) (VStr (lit "https://site.example/page")) 3 start
           1%nat {| status_code := 200; text := []; chunks := [[x25; x50]];
                    stream_breaks := false |}).
  - simpl. lia.
  - intros [|j] Hj; [reflexivity | lia].
  - reflexivity.
  - reflexivity.
  - reflexivity.
  - vm_compute. reflexivity.
Defined.

Lemma download_pdf_leaves_partial_file_witness :
  exists st',
    download_pdf (retry_env [broken_body]) (VStr (lit "ABC123"))
      (VStr (lit "https://site.example/page")) 3 start = (Ok None, st')
    /\ files st' !! (sanitize_filename (VStr (lit "https://site.example/page"))
                     ++ lit ".pdf")
       = Some [x25; x50].
Proof.
  apply (download_pdf_leaves_partial_file (retry_env [broken_body])
           (VStr (lit "ABC123")) (VStr (lit "https://site.example/page")) 3 start
           {| status_code := 200; text := []; chunks := [[x25]; [x50]];
              stream_breaks := true |}).
  - lia.
  - reflexivity.
  - reflexivity.
  - vm_compute. reflexivity.
  - reflexivity.
  - intros [|[|[|j]]] Hj; try reflexivity. lia.
Defined.

Lemma extraction_keeps_every_confirmed_witness :
  fst (extract_editorial_links_from_pdf sample_env sample_pdf fetched)
  = Ok (candidates sample_doc).
Proof.
  destruct (extraction_keeps_every_confirmed sample_env sample_pdf fetched
              [x25; x50] sample_doc) as [H _].
  - vm_compute. reflexivity.
  - reflexivity.
  - apply H. intros [|[|i]] u Hi; vm_compute in Hi; try discriminate;
      injection Hi as <-; vm_compute; reflexivity.
Defined.

Lemma findall_matches_are_urls_witness :
  (exists scheme body,
      (scheme = lit "https://" \/ scheme = lit "http://")
      /\ rf_url = scheme ++ body /\ body <> [])
  /\ Forall (fun c => is_space c = false) rf_url.
Proof.
  apply (findall_matches_are_urls sample_text rf_url).
  apply list_elem_of_In. vm_compute. left. reflexivity.
Defined.

Lemma findall_first_url_witness :
  findall (lit "https://" ++ lit "a.example/x)." ++ lit " then http://b.example")
  = (lit "https://" ++ lit "a.example/x).") :: findall (lit " then http://b.example").
Proof.
  apply findall_first_url.
  - by left.
  - discriminate.
  - vm_compute. repeat constructor.
  - reflexivity.
Defined.

Lemma records_of_present_rows_witness :
  Forall (fun rec => links rec <> [] /\ underscore ∉ title rec)
    [sample_record; sample_record; sample_record; sample_record].
Proof.
  apply (records_of_present_rows sample_env (sheet [sample_row]) start
           (snd (process_google_docs_from_excel sample_env (sheet [sample_row]) start))).
  - by_evaluation.
  - repeat constructor.
Defined.

Lemma missing_row_after_witness :
  loop_body sample_env missing_row no_locals start
  = (Raise (UnboundLocalError "formatted_title"), start)
  /\ exists prev rec,
       last (results sample_locals) = Some prev /\ title rec = title prev
       /\ loop_body sample_env missing_row sample_locals
            (snd (for_rows sample_env [sample_row] no_locals start))
          = (Ok {| results := results sample_locals ++ [rec];
                   formatted_title := formatted_title sample_locals;
                   editorial_links := editorial_links sample_locals |},
             snd (for_rows sample_env [sample_row] no_locals start)).
Proof.
  split.
  - apply (missing_row_after sample_env [] missing_row no_locals start start);
      reflexivity.
  - apply (missing_row_after sample_env [sample_row] missing_row sample_locals start
             (snd (for_rows sample_env [sample_row] no_locals start))).
    + by_evaluation.
    + reflexivity.
    + discriminate.
Defined.

Lemma row_without_reference_skipped_witness :
  loop_body sample_env unreferenced_row no_locals start = (Ok no_locals, start).
Proof.
  apply row_without_reference_skipped; vm_compute; reflexivity.
Defined.

Lemma row_with_unreachable_document_skipped_witness :
  loop_body sample_env unreachable_row no_locals start
  = (Ok no_locals, {| clock := clock start + 3; files := files start |}).
Proof.
  apply (row_with_unreachable_document_skipped sample_env unreachable_row no_locals
           start (lit "ZZZ")).
  - reflexivity.
  - vm_compute. reflexivity.
  - intros j _. vm_compute. reflexivity.
Defined.

Lemma title_of_plain_label_witness :
  replace (lit "_") (lit "/")
    (sanitize_filename (VStr (lit "https://" ++ lit "site.example/page")))
  = lit "site.example/page".
Proof.
  apply title_of_plain_label.
  - by left.
  - vm_compute. repeat constructor.
  - vm_compute. lia.
  - vm_compute. reflexivity.
Defined.
